(** * mediawiki-extdist: the nightly tarball pipeline

    A shallow embedding of [src/mediawiki_extdist/__init__.py]
    (class [TarballGenerator]) and the properties of its
    synchronise-and-publish pipeline.

    The program is a script: nearly everything it does is an effect on the
    file system, on the process, or on an external tool.  The embedding
    threads an explicit [World] through an exception-and-state monad [M];
    external tools (git, composer, tar, date, mkdir, the web API, the
    process table) are answered by a [Host], over which every theorem is
    universally quantified. *)

From Stdlib Require Import ZArith Ascii String List Bool Lia.
From stdpp Require Import base option list strings gmap fin_maps pretty.

Local Open Scope Z_scope.

(** ** Python string primitives used by the script *)

Module Py.

(** [s[n:]] *)
Fixpoint slice_from (n : nat) (s : string) : string :=
  match n, s with
  | O, _ => s
  | S _, EmptyString => EmptyString
  | S n', String _ s' => slice_from n' s'
  end.

(** [s.startswith(p)] *)
Fixpoint startswith (p s : string) : bool :=
  match p, s with
  | EmptyString, _ => true
  | String _ _, EmptyString => false
  | String a p', String b s' => if Ascii.eqb a b then startswith p' s' else false
  end.

(** [s.endswith(p)] *)
Definition endswith (p s : string) : bool :=
  startswith (String.rev p) (String.rev s).

(** [s.split(c)] for a one-character separator: never empty, and a
    trailing separator yields a final empty field. *)
Fixpoint split (c : ascii) (s : string) : list string :=
  match s with
  | EmptyString => [EmptyString]
  | String a s' =>
      if Ascii.eqb a c then EmptyString :: split c s'
      else match split c s' with
           | [] => [String a EmptyString]
           | w :: ws => String a w :: ws
           end
  end.

(** [l[-1]] on the non-empty result of [split]. *)
Definition last_field (l : list string) : string := List.last l EmptyString.

(** The ASCII characters for which [str.isspace] holds. *)
Definition isspace (a : ascii) : bool :=
  let n := nat_of_ascii a in
  ((9 <=? n) && (n <=? 13) || (28 <=? n) && (n <=? 32))%nat.

Fixpoint lstrip (s : string) : string :=
  match s with
  | EmptyString => EmptyString
  | String a s' => if isspace a then lstrip s' else s
  end.

(** [s.strip()] *)
Definition strip (s : string) : string :=
  String.rev (lstrip (String.rev (lstrip s))).

(** [needle in haystack] on strings. *)
Fixpoint contains (needle hay : string) : bool :=
  startswith needle hay ||
  match hay with
  | EmptyString => false
  | String _ hay' => contains needle hay'
  end.

(** *** [int(s)] in base ten

    Surrounding white space is dropped, one sign is allowed, and single
    underscores may separate digits.  [None] stands for [ValueError].

    The white space of [int] is that of C's [isspace]: tab to carriage
    return, and the space.  It is narrower than [str.isspace], which also
    holds for the separators 28 to 31: [int] rejects a text that starts
    or ends with one of those, where [strip] would drop it.

    The text is taken to be ASCII, and the number of digits is not
    limited: beyond ASCII Python knows more white space and more decimal
    digits, and since 3.11 it refuses more than 4300 digits unless the
    limit is lifted.  The properties below use the definition where it
    answers with a number made of ASCII digits. *)

Definition isspace_c (a : ascii) : bool :=
  let n := nat_of_ascii a in
  ((9 <=? n) && (n <=? 13) || (n =? 32))%nat.

Fixpoint lstrip_c (s : string) : string :=
  match s with
  | EmptyString => EmptyString
  | String a s' => if isspace_c a then lstrip_c s' else s
  end.

Definition strip_c (s : string) : string :=
  String.rev (lstrip_c (String.rev (lstrip_c s))).

Definition digit_of (a : ascii) : option Z :=
  let n := nat_of_ascii a in
  if ((48 <=? n) && (n <=? 57))%nat then Some (Z.of_nat n - 48) else None.

(** [digits acc prev_digit s]: [prev_digit] records that the previous
    character was a digit, the only place where ["_"] may follow. *)
Fixpoint digits (acc : Z) (prev_digit : bool) (s : string) : option Z :=
  match s with
  | EmptyString => if prev_digit then Some acc else None
  | String a s' =>
      match digit_of a with
      | Some d => digits (10 * acc + d) true s'
      | None =>
          if Ascii.eqb a "_" && prev_digit then
            match s' with
            | EmptyString => None
            | String b _ =>
                match digit_of b with
                | Some _ => digits acc false s'
                | None => None
                end
            end
          else None
      end
  end.

Definition int (s : string) : option Z :=
  match strip_c s with
  | String "-" s' => Z.opp <$> digits 0 false s'
  | String "+" s' => digits 0 false s'
  | s' => digits 0 false s'
  end.

(** [str(n)] for an integer. *)
Definition str (n : Z) : string := pretty n.

(** *** [template % arg] with one string argument

    Only the conversions the script's templates use: [%s] (exactly one
    is required) and the escape [%%].  [None] stands for the [TypeError] or
    [ValueError] Python raises on any other template. *)
Fixpoint percent_go (used : bool) (arg : string) (t : string) : option string :=
  match t with
  | EmptyString => if used then Some EmptyString else None
  | String "%" (String "s" t') =>
      if used then None else (String.append arg) <$> percent_go true arg t'
  | String "%" (String "%" t') => String "%" <$> percent_go used arg t'
  | String "%" _ => None
  | String a t' => String a <$> percent_go used arg t'
  end.

Definition percent (template arg : string) : option string :=
  percent_go false arg template.

(** *** [fnmatch] as used by [glob.glob]

    The wildcards [*] and [?]; every other character stands for itself.
    Bracket classes are outside the model: the names the pipeline builds
    patterns from are assumed free of ["["]. *)
Fixpoint fnmatch_star (rest : string → bool) (name : string) : bool :=
  rest name ||
  match name with
  | EmptyString => false
  | String _ name' => fnmatch_star rest name'
  end.

Fixpoint fnmatch (pat : string) : string → bool :=
  match pat with
  | EmptyString => fun name => match name with EmptyString => true | _ => false end
  | String "*" pat' => fnmatch_star (fnmatch pat')
  | String "?" pat' =>
      fun name => match name with
                  | EmptyString => false
                  | String _ name' => fnmatch pat' name'
                  end
  | String a pat' =>
      fun name => match name with
                  | EmptyString => false
                  | String b name' => Ascii.eqb a b && fnmatch pat' name'
                  end
  end.

(** [os.path.isabs] on POSIX *)
Definition isabs (p : string) : bool := startswith "/" p.

(** One path component of [glob.glob]: a name starting with a dot is only
    matched by a pattern that starts with a dot. *)
Definition is_hidden (s : string) : bool := startswith "." s.

Definition glob_match (pat name : string) : bool :=
  (is_hidden pat || negb (is_hidden name)) && fnmatch pat name.

End Py.

(** ** Exceptions and results *)

(** The exception classes the script distinguishes.  [OSError] stands for the
    whole family ([FileNotFoundError], [PermissionError], [shutil.Error],
    the exceptions of [requests], ...); [OtherException] for any further
    subclass of [Exception], named for the log. *)
Inductive exn :=
| CalledProcessError
| OSError
| OtherException (name : string)
| KeyboardInterrupt
| SystemExit (code : option Z).

(** [isinstance(e, Exception)]: [KeyboardInterrupt] and [SystemExit] derive
    from [BaseException] only. *)
Definition is_Exception (e : exn) : bool :=
  match e with
  | CalledProcessError | OSError | OtherException _ => true
  | KeyboardInterrupt | SystemExit _ => false
  end.

Definition exn_name (e : exn) : string :=
  match e with
  | CalledProcessError => "subprocess.CalledProcessError"
  | OSError => "OSError"
  | OtherException n => n
  | KeyboardInterrupt => "KeyboardInterrupt"
  | SystemExit _ => "SystemExit"
  end.

(** [traceback.format_exc()], reduced to the class of the exception. *)
Definition format_exc (e : exn) : string :=
  "Traceback (most recent call last): " +:+ exn_name e.

Inductive res (A : Type) :=
| Ok (a : A)
| Raise (e : exn).
Arguments Ok {A} a.
Arguments Raise {A} e.

(** What can go wrong with an external collaborator, and the exception the
    Python side sees for it.  The operator's interrupt is taken to arrive
    while the script waits for a collaborator, which is where it spends its
    time. *)
Inductive fault :=
| ExitNonZero   (* the tool ran and exited with a non-zero status *)
| OsFault       (* the tool could not be started, the network failed *)
| Garbled       (* the answer could not be decoded *)
| Interrupted.  (* the operator interrupted the wait *)

Definition exn_of_fault (f : fault) : exn :=
  match f with
  | ExitNonZero => CalledProcessError
  | OsFault => OSError
  | Garbled => OtherException "ValueError"
  | Interrupted => KeyboardInterrupt
  end.

Inductive outcome :=
| Done (out : string)
| Fault (f : fault).

(** ** The file system, as far as the pipeline looks at it *)

Record file := File { content : string; mtime : Z }.

(** The dictionary [git_info] dumped to [gitinfo.json]. *)
Record git_info := GitInfo {
  gi_head : string;
  gi_headSHA1 : string;
  gi_headCommitDate : string;
  gi_branch : string;
  gi_remoteURL : string
}.

(** A directory below one of the two roots.  For a mirror the pipeline reads
    [.git/HEAD] and [composer.json] and writes [gitinfo.json] and [version];
    [t_entries] names further entries of the directory, such as what
    [shutil.move] dropped into it.  All else in it is the business of the
    external tools. *)
Record tree := Tree {
  t_head : option string;
  t_composer : option string;
  t_gitinfo : option git_info;
  t_version : option string;
  t_entries : list string
}.

Inductive node :=
| NFile (f : file)
| NDir (t : tree).

(** The lock file at [PID_FILE]. *)
Inductive lock_file :=
| LockAbsent
| LockUnreadable            (* exists, but [open(.., 'r')] is refused *)
| LockText (s : string).

Inductive cwd_t :=
| CwdStart                  (* wherever the process was started *)
| CwdExt                    (* [EXT_PATH] *)
| CwdMirror (ext : string). (* [EXT_PATH/ext] *)

Inductive level := DEBUG | INFO | WARNING | ERROR.

(** The object at [query.general.extensiondistributor] of the site
    information, as far as the script reads it: the entry ['snapshots'],
    when there is one, and whether there is an entry ['list']. *)
Record ext_config := ExtConfig {
  snapshots : option (list string);
  has_list : bool
}.

Global Instance level_eq_dec : EqDecision level.
Proof. solve_decision. Defined.

(** The state of the run.  [src] is the directory [EXT_PATH], taken to be
    absolute, and [dist] the directory that [DIST_PATH] names where the
    process was started ([None]: the directory does not exist); the two are
    taken to be separate, their paths to hold none of the characters that
    [glob] reads as wildcards, and repository and branch names to be single
    path components.  The script changes directory and never resolves its
    paths, so a relative [DIST_PATH] names another place once the script is
    in EXT_PATH or in a mirror: what is found at that place is not tracked,
    it is for the host to say.  The process may write in the tracked
    directories: the files of a mirror can be written whenever the script
    opens them for writing, and a file is removed or moved unless what is
    tracked stands in the way (no such entry, a directory where a file is
    expected); permissions, quotas and a full disk are left out there.
    Whether the lock file can be written is for the host to say.  [ext] is
    the state of everything outside (remotes, clock, process table, random
    source, permissions). *)
Record World (E : Type) := mkWorld {
  pid_file : lock_file;
  src : option (gmap string node);
  dist : option (gmap string node);
  cwd : cwd_t;
  _repo_list : option (list string);
  _extension_config : option ext_config;
  log : list (level * string);
  ext : E
}.
Arguments mkWorld {E}.
Arguments pid_file {E}.
Arguments src {E}.
Arguments dist {E}.
Arguments cwd {E}.
Arguments _repo_list {E}.
Arguments _extension_config {E}.
Arguments log {E}.
Arguments ext {E}.

(** The configuration fields of [TarballGenerator.__init__]. *)
Record Conf := mkConf {
  GIT_URL : string;
  SRC_PATH : string;
  DIST_PATH : string;
  REPO_TYPE : string;
  COMPOSER : option string;
  force : bool
}.

(** [os.path.join(a, b)] for a relative [b]. *)
Definition path_join (a b : string) : string :=
  if decide (a = "") then b
  else if Py.endswith "/" a then a +:+ b
  else a +:+ "/" +:+ b.

Definition EXT_PATH (c : Conf) : string := path_join (SRC_PATH c) (REPO_TYPE c).

(** What [json.load] returned for [composer.json], as far as the test
    ['require' in d_composer] looks: the keys of an object, the string
    elements of an array, a string, or a value without [__contains__]. *)
Inductive json :=
| JObject (keys : list string)
| JArray (strings : list string)
| JString (s : string)
| JScalar.

Inductive signal_result :=
| Delivered        (* the process exists and may be signalled *)
| NoSuchProcess    (* ESRCH, an [OSError] *)
| NotPermitted     (* EPERM, an [OSError]: the process exists *)
| PidOutOfRange.   (* [OverflowError]: not a pid at all *)

Inductive made (A : Type) :=
| Made (a : A)                         (* exit status 0: the thing exists *)
| NotMade (f : fault) (left : option A). (* failure, and what it left behind *)
Arguments Made {A} a.
Arguments NotMade {A} f left.

(** The collaborators.  Each external command gets the argument vector the
    script passes to [subprocess.check_output]. *)
Record Host (E : Type) := mkHost {
  getpid : Z;
  kill0 : Z → E → signal_result;
  (* whether [open(PID_FILE, 'w')] succeeds; it is an [OSError] otherwise *)
  lock_writable : E → bool;
  (* a command run inside a mirror: git, composer *)
  in_tree : list string → tree → E → outcome * tree * E;
  (* [git clone url ext] run in [EXT_PATH] *)
  clone : list string → E → made tree * E;
  (* [tar ... -czhPf fname ext] run in [EXT_PATH], given the entry [ext] *)
  tar : list string → option node → E → made file * E;
  (* a command that only prints: date *)
  plain : list string → E → outcome * E;
  (* [mkdir -p path] *)
  mkdir : list string → E → outcome * E;
  (* the two API requests, reduced to the parts of the answer the script
     takes: a failure covers the request, the status, the decoding and the
     path down to the part *)
  api_repos : E → (fault + list string) * E;
  api_config : E → (fault + ext_config) * E;
  (* a relative [DIST_PATH] seen from EXT_PATH or from a mirror, given the
     working directory and the relative path: whether the path exists,
     what a pattern lists there, whether a file there can be removed, and
     whether an entry of EXT_PATH can be moved there *)
  stray_exists : cwd_t → string → E → bool;
  stray_glob : cwd_t → string → E → list string;
  stray_unlink : cwd_t → string → E → bool * E;
  stray_move : cwd_t → string → node → E → bool * E;
  (* [random.randint(0, 99)] *)
  randint : E → Z * E;
  (* [json.loads]; [None] is [JSONDecodeError] *)
  json_loads : string → option json
}.
Arguments getpid {E}.
Arguments kill0 {E}.
Arguments lock_writable {E}.
Arguments in_tree {E}.
Arguments clone {E}.
Arguments tar {E}.
Arguments plain {E}.
Arguments mkdir {E}.
Arguments api_repos {E}.
Arguments api_config {E}.
Arguments stray_exists {E}.
Arguments stray_glob {E}.
Arguments stray_unlink {E}.
Arguments stray_move {E}.
Arguments randint {E}.
Arguments json_loads {E}.

(** ** The monad of the script: state and exceptions *)

Definition M (E A : Type) : Type := World E → res A * World E.

Definition ret {E A} (a : A) : M E A := fun w => (Ok a, w).

Definition bind {E A B} (m : M E A) (k : A → M E B) : M E B :=
  fun w => match m w with
           | (Ok a, w') => k a w'
           | (Raise e, w') => (Raise e, w')
           end.

Definition raise {E A} (e : exn) : M E A := fun w => (Raise e, w).

(** [try: m except <classes selected by catches>: handler] *)
Definition try_except {E A} (m : M E A) (catches : exn → bool)
    (handler : exn → M E A) : M E A :=
  fun w => match m w with
           | (Ok a, w') => (Ok a, w')
           | (Raise e, w') => if catches e then handler e w' else (Raise e, w')
           end.

Declare Scope py_scope.
Delimit Scope py_scope with py.
Notation "x <- m ;; k" := (bind m (fun x => k))
  (at level 100, m at next level, right associativity) : py_scope.
Notation "m ;; k" := (bind m (fun _ => k))
  (at level 100, right associativity) : py_scope.
Local Open Scope py_scope.

(** [for x in l: body(x)] *)
Fixpoint for_each {E A} (l : list A) (body : A → M E unit) : M E unit :=
  match l with
  | [] => ret tt
  | x :: l' => body x ;; for_each l' body
  end.

Definition is_CalledProcessError (e : exn) : bool :=
  match e with CalledProcessError => true | _ => false end.

Definition is_KeyboardInterrupt (e : exn) : bool :=
  match e with KeyboardInterrupt => true | _ => false end.

(** ** Updating the world *)

Section WorldUpdates.
Context {E : Type}.

Definition set_pid_file (x : lock_file) (w : World E) : World E :=
  mkWorld x (src w) (dist w) (cwd w) (_repo_list w) (_extension_config w) (log w) (ext w).
Definition set_src (x : option (gmap string node)) (w : World E) : World E :=
  mkWorld (pid_file w) x (dist w) (cwd w) (_repo_list w) (_extension_config w) (log w) (ext w).
Definition set_dist (x : option (gmap string node)) (w : World E) : World E :=
  mkWorld (pid_file w) (src w) x (cwd w) (_repo_list w) (_extension_config w) (log w) (ext w).
Definition set_cwd (x : cwd_t) (w : World E) : World E :=
  mkWorld (pid_file w) (src w) (dist w) x (_repo_list w) (_extension_config w) (log w) (ext w).
Definition set_repo_list (x : option (list string)) (w : World E) : World E :=
  mkWorld (pid_file w) (src w) (dist w) (cwd w) x (_extension_config w) (log w) (ext w).
Definition set_extension_config (x : option ext_config) (w : World E) : World E :=
  mkWorld (pid_file w) (src w) (dist w) (cwd w) (_repo_list w) x (log w) (ext w).
Definition set_log (x : list (level * string)) (w : World E) : World E :=
  mkWorld (pid_file w) (src w) (dist w) (cwd w) (_repo_list w) (_extension_config w) x (ext w).
Definition set_ext (x : E) (w : World E) : World E :=
  mkWorld (pid_file w) (src w) (dist w) (cwd w) (_repo_list w) (_extension_config w) (log w) x.

(** The mirror the working directory points at, if it is one. *)
Definition cwd_tree (w : World E) : option (string * tree) :=
  match cwd w, src w with
  | CwdMirror x, Some sd =>
      match sd !! x with
      | Some (NDir t) => Some (x, t)
      | _ => None
      end
  | _, _ => None
  end.

Definition put_tree (x : string) (t : tree) (w : World E) : World E :=
  match src w with
  | Some sd => set_src (Some (<[x := NDir t]> sd)) w
  | None => w
  end.

End WorldUpdates.

Definition set_gitinfo (g : git_info) (t : tree) : tree :=
  Tree (t_head t) (t_composer t) (Some g) (t_version t) (t_entries t).
Definition set_version (v : string) (t : tree) : tree :=
  Tree (t_head t) (t_composer t) (t_gitinfo t) (Some v) (t_entries t).
Definition add_entry (n : string) (t : tree) : tree :=
  Tree (t_head t) (t_composer t) (t_gitinfo t) (t_version t) (n :: t_entries t).

(** The names in a directory that a one-component pattern selects.  The
    order [glob.glob] returns them in is arbitrary; the model takes the
    order of the map. *)
Definition glob_dir (pat : string) (d : gmap string node) : list string :=
  filter (fun n => Py.glob_match pat n = true) (map_to_list d).*1.

Definition LF : string := String (ascii_of_nat 10) EmptyString.

(** ** The external commands *)

Inductive root := ExtRoot | DistRoot.

(** The call sites of [shell_exec], by what the command works on. *)
Inductive cmd :=
| MkdirP (r : root)                 (* ['mkdir', '-p', path] *)
| GitClone (url ext : string)       (* ['git', 'clone', url, ext], in EXT_PATH *)
| InTree (argv : list string)       (* a command in the mirror that is the cwd *)
| GitGc (ext : string)              (* ['git', 'gc'] with cwd=full_path *)
| TarCreate (fname ext : string)    (* ['tar', ..., fname, ext], in EXT_PATH *)
| Date.                             (* ['date', '+%Y-%m-%dT%H:%M:%S'] *)

Definition root_path (c : Conf) (r : root) : string :=
  match r with ExtRoot => EXT_PATH c | DistRoot => DIST_PATH c end.

Definition argv (c : Conf) (k : cmd) : list string :=
  match k with
  | MkdirP r => ["mkdir"; "-p"; root_path c r]
  | GitClone url x => ["git"; "clone"; url; x]
  | InTree a => a
  | GitGc _ => ["git"; "gc"]
  | TarCreate fname x => ["tar"; "--exclude"; ".git"; "-czhPf"; fname; x]
  | Date => ["date"; "+%Y-%m-%dT%H:%M:%S"]
  end%string.

Definition of_outcome {E} (o : outcome) (w : World E) : res string * World E :=
  match o with
  | Done out => (Ok out, w)
  | Fault f => (Raise (exn_of_fault f), w)
  end.

(** ** The class [TarballGenerator] *)

Section Pipeline.
Context {E : Type} (host : Host E) (conf : Conf).

Definition gets {A} (f : World E → A) : M E A := fun w => (Ok (f w), w).

Definition modify (f : World E → World E) : M E unit := fun w => (Ok tt, f w).

(** [logging.<level>(msg)] *)
Definition logging (l : level) (msg : string) : M E unit :=
  modify (fun w => set_log (log w ++ [(l, msg)]) w).

(** *** [shell_exec] (lines 133-139)

    [subprocess.check_output(args).decode()]: the host answers, and the
    effect of the command on the tracked file system is applied. *)
Definition shell_exec (k : cmd) : M E string := fun w =>
  let a := argv conf k in
  match k with
  | MkdirP r =>
      let '(o, e') := mkdir host a (ext w) in
      let w' := set_ext e' w in
      match o with
      | Done out =>
          (Ok out,
           match r with
           | ExtRoot => set_src (Some (default ∅ (src w'))) w'
           | DistRoot => set_dist (Some (default ∅ (dist w'))) w'
           end)
      | Fault f => (Raise (exn_of_fault f), w')
      end
  | GitClone _ x =>
      match src w with
      | None => (Raise OSError, w)
      | Some sd =>
          let '(m, e') := clone host a (ext w) in
          let w' := set_ext e' w in
          match m with
          | Made t => (Ok ""%string, set_src (Some (<[x := NDir t]> sd)) w')
          | NotMade f (Some t) =>
              (Raise (exn_of_fault f), set_src (Some (<[x := NDir t]> sd)) w')
          | NotMade f None => (Raise (exn_of_fault f), w')
          end
      end
  | InTree _ =>
      match cwd_tree w with
      | None => (Raise OSError, w)
      | Some (x, t) =>
          let '(o, t', e') := in_tree host a t (ext w) in
          of_outcome o (put_tree x t' (set_ext e' w))
      end
  | GitGc x =>
      match src w with
      | Some sd =>
          match sd !! x with
          | Some (NDir t) =>
              let '(o, t', e') := in_tree host a t (ext w) in
              of_outcome o (put_tree x t' (set_ext e' w))
          | _ => (Raise OSError, w)
          end
      | None => (Raise OSError, w)
      end
  | TarCreate fname x =>
      match src w with
      | None => (Raise OSError, w)
      | Some sd =>
          let '(m, e') := tar host a (sd !! x) (ext w) in
          let w' := set_ext e' w in
          match m with
          | Made f => (Ok ""%string, set_src (Some (<[fname := NFile f]> sd)) w')
          | NotMade f (Some part) =>
              (Raise (exn_of_fault f), set_src (Some (<[fname := NFile part]> sd)) w')
          | NotMade f None => (Raise (exn_of_fault f), w')
          end
      end
  | Date =>
      let '(o, e') := plain host a (ext w) in
      of_outcome o (set_ext e' w)
  end.

(** *** File-system calls of the script *)

(** [os.chdir(self.EXT_PATH)] *)
Definition chdir_ext : M E unit := fun w =>
  match src w with
  | Some _ => (Ok tt, set_cwd CwdExt w)
  | None => (Raise OSError, w)
  end.

(** [os.chdir(full_path)] with [full_path = EXT_PATH/ext] *)
Definition chdir_mirror (x : string) : M E unit := fun w =>
  match src w with
  | Some sd =>
      match sd !! x with
      | Some (NDir _) => (Ok tt, set_cwd (CwdMirror x) w)
      | _ => (Raise OSError, w)
      end
  | None => (Raise OSError, w)
  end.

(** [os.path.exists(full_path)] *)
Definition exists_in_src (x : string) (w : World E) : bool :=
  match src w with
  | Some sd => bool_decide (is_Some (sd !! x))
  | None => false
  end.

(** Whether [os.path.join(self.DIST_PATH, name)] points into the tracked
    DIST_PATH: always for an absolute DIST_PATH; for a relative one only
    while the process is where it started, that is before the first
    [os.chdir] (lines 150, 155, 225). *)
Definition dist_in_reach (w : World E) : bool :=
  Py.isabs (DIST_PATH conf) ||
  match cwd w with CwdStart => true | _ => false end.

(** [os.path.exists(os.path.join(self.DIST_PATH, name))] *)
Definition exists_here (n : string) (w : World E) : bool :=
  match dist w with
  | Some dd => bool_decide (is_Some (dd !! n))
  | None => false
  end.

Definition exists_in_dist (n : string) (w : World E) : bool :=
  if dist_in_reach w then exists_here n w
  else stray_exists host (cwd w) (path_join (DIST_PATH conf) n) (ext w).

(** [glob.glob(os.path.join(self.DIST_PATH, pat))]: in the tracked
    DIST_PATH as names, elsewhere as the paths the host lists. *)
Definition glob_here (pat : string) (w : World E) : list string :=
  match dist w with
  | Some dd => glob_dir pat dd
  | None => []
  end.

Definition glob_dist (pat : string) (w : World E) : list string :=
  if dist_in_reach w then glob_here pat w
  else stray_glob host (cwd w) (path_join (DIST_PATH conf) pat) (ext w).

(** [glob.glob(os.path.join(self.EXT_PATH, pat))], as names in EXT_PATH *)
Definition glob_src (pat : string) (w : World E) : list string :=
  match src w with
  | Some sd => glob_dir pat sd
  | None => []
  end.

(** [os.unlink(old)] for what [glob_dist] listed *)
Definition unlink_here (n : string) : M E unit := fun w =>
  match dist w with
  | Some dd =>
      match dd !! n with
      | Some (NFile _) => (Ok tt, set_dist (Some (delete n dd)) w)
      | _ => (Raise OSError, w)
      end
  | None => (Raise OSError, w)
  end.

Definition unlink_dist (n : string) : M E unit := fun w =>
  if dist_in_reach w then unlink_here n w
  else
    let '(gone, e') := stray_unlink host (cwd w) n (ext w) in
    (if gone : bool then Ok tt else Raise OSError, set_ext e' w).

(** [shutil.move(EXT_PATH/n, DIST_PATH/n)] into the tracked DIST_PATH.
    Onto a file or a free name the entry is renamed (content and times go
    with it); a directory cannot replace a file; onto a directory the
    entry is moved inside it, unless the directory already has an entry of
    that name. *)
Definition move_here (n : string) : M E unit := fun w =>
  match src w, dist w with
  | Some sd, Some dd =>
      match sd !! n with
      | None => (Raise OSError, w)
      | Some x =>
          let moved d' := set_dist (Some d') (set_src (Some (delete n sd)) w) in
          match dd !! n, x with
          | None, _ => (Ok tt, moved (<[n := x]> dd))
          | Some (NFile _), NFile _ => (Ok tt, moved (<[n := x]> dd))
          | Some (NFile _), NDir _ => (Raise OSError, w)
          | Some (NDir t), _ =>
              if bool_decide (n ∈ t_entries t) then (Raise OSError, w)
              else (Ok tt, moved (<[n := NDir (add_entry n t)]> dd))
          end
      end
  | _, _ => (Raise OSError, w)
  end.

(** [shutil.move(tar, os.path.join(self.DIST_PATH, fname))] for the entry
    [n] of EXT_PATH.  With a relative DIST_PATH and the script in EXT_PATH
    or in a mirror, the destination is below EXT_PATH: the move fails when
    there is no such directory, and otherwise the entry leaves the top of
    EXT_PATH for a place that is not tracked. *)
Definition shutil_move (n : string) : M E unit := fun w =>
  if dist_in_reach w then move_here n w
  else
    match src w with
    | Some sd =>
        match sd !! n with
        | None => (Raise OSError, w)
        | Some x =>
            let '(landed, e') :=
              stray_move host (cwd w) (path_join (DIST_PATH conf) n) x (ext w) in
            if landed : bool
            then (Ok tt, set_src (Some (delete n sd)) (set_ext e' w))
            else (Raise OSError, set_ext e' w)
        end
    | None => (Raise OSError, w)
    end.

(** Reading a file of the mirror that is the working directory. *)
Definition read_in_tree (field : tree → option string) : M E string := fun w =>
  match cwd_tree w with
  | Some (_, t) =>
      match field t with
      | Some s => (Ok s, w)
      | None => (Raise OSError, w)
      end
  | None => (Raise OSError, w)
  end.

(** Writing a file of the mirror that is the working directory. *)
Definition write_in_tree (f : tree → tree) : M E unit := fun w =>
  match cwd_tree w with
  | Some (x, t) => (Ok tt, put_tree x (f t) w)
  | None => (Raise OSError, w)
  end.

(** [os.path.exists('composer.json')] *)
Definition exists_composer (w : World E) : bool :=
  match cwd_tree w with
  | Some (_, t) => bool_decide (is_Some (t_composer t))
  | None => false
  end.

(** ['require' in d_composer] *)
Definition has_require (j : json) : M E bool :=
  match j with
  | JObject keys => ret (bool_decide ("require"%string ∈ keys))
  | JArray strs => ret (bool_decide ("require"%string ∈ strs))
  | JString s => ret (Py.contains "require" s)
  | JScalar => raise (OtherException "TypeError")
  end.

(** [self.GIT_URL % ext] *)
Definition git_url (x : string) : M E string :=
  match Py.percent (GIT_URL conf) x with
  | Some u => ret u
  | None => raise (OtherException "TypeError")
  end.

(** *** [repo_list], [supported_versions] (lines 51-103) *)

Definition fetch_all_repos : M E (list string) :=
  logging DEBUG ("Fetching list of all " +:+ REPO_TYPE conf +:+ "...") ;;
  fun w => match api_repos host (ext w) with
           | (inr l, e') => (Ok l, set_ext e' w)
           | (inl f, e') => (Raise (exn_of_fault f), set_ext e' w)
           end.

Definition repo_list : M E (list string) :=
  cached <- gets _repo_list ;;
  match cached with
  | Some l => ret l
  | None =>
      l <- fetch_all_repos ;;
      modify (set_repo_list (Some l)) ;;
      ret l
  end.

(** Lines 84-103.  The object is kept at line 98, before lines 101-102
    look up its two entries for the dictionary that is returned (and that
    no caller uses): a [KeyError] there finds the object already kept. *)
Definition fetch_extension_config : M E unit :=
  logging DEBUG "Fetching ExtensionDistributor config from API..." ;;
  fun w => match api_config host (ext w) with
           | (inr c, e') =>
               let w' := set_extension_config (Some c) (set_ext e' w) in
               match snapshots c with
               | None => (Raise (OtherException "KeyError"), w')
               | Some _ =>
                   if has_list c then (Ok tt, w')
                   else (Raise (OtherException "KeyError"), w')
               end
           | (inl f, e') => (Raise (exn_of_fault f), set_ext e' w)
           end.

(** Lines 75-82 *)
Definition supported_versions : M E (list string) :=
  cached <- gets _extension_config ;;
  match cached with
  | Some _ => ret tt
  | None => fetch_extension_config
  end ;;
  now_cached <- gets _extension_config ;;
  match now_cached with
  | Some c =>
      match snapshots c with
      | Some l => ret l
      | None => raise (OtherException "KeyError")
      end
  | None => raise (OtherException "TypeError")
  end.

(** *** [check_pid], [create_pid_file], [init] (lines 105-131, 239-259) *)

Definition check_pid (pid : Z) : M E bool := fun w =>
  match kill0 host pid (ext w) with
  | Delivered => (Ok true, w)
  | NoSuchProcess | NotPermitted => (Ok false, w)   (* except OSError *)
  | PidOutOfRange => (Raise (OtherException "OverflowError"), w)
  end.

(** [open(self.PID_FILE, 'w')] is refused for a file or a directory that
    cannot be written; the file is then as it was. *)
Definition create_pid_file : M E unit :=
  writable <- gets (fun w => lock_writable host (ext w)) ;;
  if writable : bool then
    modify (set_pid_file (LockText (Py.str (getpid host)))) ;;
    logging INFO "Creating pid file"
  else raise OSError.

(** [quit()]: [SystemExit] without a code. *)
Definition quit {A} : M E A := raise (SystemExit None).

(** [with open(self.PID_FILE, 'r') as f: old_pid = f.read()] *)
Definition read_pid_file : M E string := fun w =>
  match pid_file w with
  | LockText s => (Ok s, w)
  | LockUnreadable | LockAbsent => (Raise OSError, w)
  end.

(** [os.path.exists(self.PID_FILE)] *)
Definition pid_file_exists (w : World E) : bool :=
  match pid_file w with
  | LockAbsent => false
  | _ => true
  end.

(** [int(old_pid)] *)
Definition int_of (s : string) : M E Z :=
  match Py.int s with
  | Some n => ret n
  | None => raise (OtherException "ValueError")
  end.

(** Lines 116-123: check to make sure nightly.py isn't already running *)
Definition check_not_running : M E unit :=
  there <- gets pid_file_exists ;;
  if there : bool then
    old_pid <- read_pid_file ;;
    pid <- int_of old_pid ;;
    running <- check_pid pid ;;
    if running : bool then
      logging WARNING "Another process of nightly.py is still running, quitting this one" ;;
      quit
    else ret tt
  else ret tt.

(** Lines 127-131: init some directories we'll need.  [init] is the first
    call of [run], made where the process was started: that is where a
    relative DIST_PATH is looked up and made. *)
Definition ensure_dirs : M E unit :=
  have_ext <- gets (fun w => bool_decide (is_Some (src w))) ;;
  (if have_ext : bool then ret tt
   else shell_exec (MkdirP ExtRoot) ;; ret tt) ;;
  have_dist <- gets (fun w => bool_decide (is_Some (dist w))) ;;
  (if have_dist : bool then ret tt
   else shell_exec (MkdirP DistRoot) ;; ret tt).

Definition init : M E unit :=
  check_not_running ;;
  create_pid_file ;;
  ensure_dirs.

(** *** [update_extension] (lines 141-237) *)

(** Lines 157-160 *)
Definition refresh_remote (repo_url : string) : M E unit :=
  (* In case GIT_URL has changed *)
  shell_exec (InTree ["git"; "remote"; "set-url"; "origin"; repo_url]) ;;
  (* Update remotes *)
  shell_exec (InTree ["git"; "fetch"]) ;;
  ret tt.

(** Lines 162-167: the body of the [try] *)
Definition guarded_checkout (branch : string) : M E unit :=
  (* Could fail if repo is empty *)
  shell_exec (InTree ["git"; "reset"; "--hard"; "origin/master"]) ;;
  (* Reset everything! *)
  shell_exec (InTree ["git"; "clean"; "-ffdx"]) ;;
  (* Checkout the branch *)
  shell_exec (InTree ["git"; "checkout"; "origin/" +:+ branch]) ;;
  ret tt.

(** Lines 161-171: the [try] with its [except] clause.  [true]: the branch
    is checked out; [false]: the [except] clause ran, which ends the
    iteration ([continue]). *)
Definition checkout_branch (branch : string) : M E bool :=
  try_except
    (guarded_checkout branch ;; ret true)
    is_CalledProcessError
    (fun _ =>
       (* Just a warning because this is expected for some extensions *)
       logging WARNING ("could not checkout origin/" +:+ branch) ;;
       ret false).

(** Lines 172-179: after the checkout, up to the short hash of HEAD. *)
Definition settle_checkout : M E string :=
  (* Reset everything, again. *)
  shell_exec (InTree ["git"; "clean"; "-ffd"]) ;;
  (* Sync submodules in case their urls have changed *)
  shell_exec (InTree ["git"; "submodule"; "sync"]) ;;
  (* Update them, initializing new ones if needed *)
  shell_exec (InTree ["git"; "submodule"; "update"; "--init"]) ;;
  (* Gets short hash of HEAD *)
  out <- shell_exec (InTree ["git"; "rev-parse"; "--short=7"; "HEAD"]) ;;
  ret (Py.strip out).

(** Line 181 *)
Definition tarball_fname (x branch : string) : string :=
  x +:+ "-" +:+ branch +:+ ".tar.gz".

(** Lines 185-194 *)
Definition composer_install (x : string) : M E unit :=
  match COMPOSER conf with
  | Some composer =>
      if bool_decide (composer = ""%string) then ret tt else
      there <- gets exists_composer ;;
      if there : bool then
        text <- read_in_tree t_composer ;;
        d_composer <- match json_loads host text with
                      | Some j => ret j
                      | None => raise (OtherException "json.JSONDecodeError")
                      end ;;
        wanted <- has_require d_composer ;;
        if wanted : bool then
          logging DEBUG ("Running composer install for " +:+ x) ;;
          try_except
            (shell_exec (InTree [composer; "install"; "--no-dev";
                                 "--ignore-platform-reqs"]) ;; ret tt)%string
            is_CalledProcessError
            (fun e =>
               logging ERROR (format_exc e) ;;
               logging ERROR "composer install failed")
        else ret tt
      else ret tt
  | None => ret tt
  end.

(** Lines 199-200 *)
Definition strip_ref (head : string) : string :=
  if Py.startswith "ref:" head then Py.slice_from 5 head  (* Strip 'ref :' *)
  else head.

(** Lines 205-208 *)
Definition branch_of_head (head : string) : string :=
  if Py.startswith "refs/heads" head then Py.last_field (Py.split "/" head)
  else head.

(** Lines 195-212: create gitinfo.json *)
Definition write_gitinfo (x : string) : M E unit :=
  raw <- read_in_tree t_head ;;
  let head := strip_ref raw in
  (* Get the SHA-1 *)
  sha1 <- shell_exec (InTree ["git"; "rev-parse"; "HEAD"]) ;;
  date <- shell_exec (InTree ["git"; "show"; "-s"; "--format=format:%ct"; "HEAD"]) ;;
  let gi_branch := branch_of_head head in
  url <- git_url x ;;
  write_in_tree (set_gitinfo (GitInfo head sha1 date gi_branch url)).

(** Lines 214-219: the legacy 'version' file.  The first line is written
    before [date] is run, so a failing [date] leaves a one-line file. *)
Definition write_version (x branch rev : string) : M E unit :=
  let line1 := x +:+ ": " +:+ branch +:+ LF in
  write_in_tree (set_version line1) ;;
  now <- shell_exec Date ;;
  write_in_tree (set_version (line1 +:+ now +:+ LF +:+ rev +:+ LF)).

(** Lines 220-224: deleting old tarballs *)
Definition prune (x branch : string) : M E unit :=
  old_tarballs <- gets (glob_dist (x +:+ "-" +:+ branch +:+ "-*.tar.gz")) ;;
  logging DEBUG "Deleting old tarballs..." ;;
  for_each old_tarballs unlink_dist.

(** Lines 185-227: the iteration once the tarball is known to be wanted. *)
Definition build (x branch rev : string) : M E unit :=
  composer_install x ;;
  write_gitinfo x ;;
  write_version x branch rev ;;
  prune x branch ;;
  chdir_ext ;;
  (* Finally, create the new tarball *)
  shell_exec (TarCreate (tarball_fname x branch) x) ;;
  ret tt.

(** Lines 155-160: entering the mirror and refreshing its remote. *)
Definition approach (x repo_url branch : string) : M E unit :=
  chdir_mirror x ;;
  logging INFO ("Creating " +:+ branch +:+ " for " +:+ x) ;;
  refresh_remote repo_url.

(** Lines 155-179: pinning the mirror to [origin/branch].  [None]: the
    branch was given up ([continue] at line 171); [Some rev]: the checkout
    is settled and [rev] is the short hash of HEAD. *)
Definition pin (x repo_url branch : string) : M E (option string) :=
  approach x repo_url branch ;;
  checked_out <- checkout_branch branch ;;
  if negb checked_out then ret None
  else
    rev <- settle_checkout ;;
    ret (Some rev).

(** Lines 181-227: deciding, and building when the tarball is wanted. *)
Definition publish (x branch rev : string) : M E unit :=
  present <- gets (exists_in_dist (tarball_fname x branch)) ;;
  if negb (force conf) && present then
    logging DEBUG "No updates to branch, tarball already exists." (* continue *)
  else build x branch rev.

(** Lines 155-227: the body of the loop over the branches. *)
Definition update_branch (x repo_url branch : string) : M E unit :=
  pinned <- pin x repo_url branch ;;
  match pinned with
  | None => ret tt (* continue *)
  | Some rev => publish x branch rev
  end.

(** Lines 228-232: moving new tarballs into dist/ *)
Definition move_tarballs : M E unit :=
  logging DEBUG "Moving new tarballs into dist/" ;;
  tarballs <- gets (glob_src "*.tar.gz") ;;
  for_each tarballs shutil_move.

(** Lines 149-153: clone when there is no mirror yet. *)
Definition ensure_clone (x repo_url : string) : M E unit :=
  there <- gets (exists_in_src x) ;;
  if there : bool then ret tt
  else
    chdir_ext ;;
    logging DEBUG ("Cloning " +:+ x) ;;
    shell_exec (GitClone repo_url x) ;;
    ret tt.

(** Line 154: [versions or self.supported_versions] *)
Definition branches_for (versions : option (list string)) : M E (list string) :=
  match versions with
  | Some (b :: bs) => ret (b :: bs)
  | Some [] | None => supported_versions
  end.

(** Lines 235-237 *)
Definition maybe_gc (x : string) : M E unit :=
  n <- (fun w => let '(n, e') := randint host (ext w) in (Ok n, set_ext e' w)) ;;
  if bool_decide (n = 0) then
    (* Run git gc every 100th process (statistically) *)
    shell_exec (GitGc x) ;; ret tt
  else ret tt.

(** Lines 146-154: up to the loop; the URL and the branches to go through. *)
Definition prepare (x : string) (versions : option (list string))
    : M E (string * list string) :=
  logging INFO ("Starting update for " +:+ x) ;;
  repo_url <- git_url x ;;
  ensure_clone x repo_url ;;
  branches <- branches_for versions ;;
  ret (repo_url, branches).

(** Lines 146-227: everything up to the end of the loop over the branches. *)
Definition sync_branches (x : string) (versions : option (list string)) : M E unit :=
  p <- prepare x versions ;;
  for_each (snd p) (update_branch x (fst p)).

(** Lines 233-237: after the move. *)
Definition finish_update (x : string) : M E unit :=
  logging INFO ("Finished update for " +:+ x) ;;
  maybe_gc x.

Definition update_extension (x : string) (versions : option (list string)) : M E unit :=
  sync_branches x versions ;;
  move_tarballs ;;
  finish_update x.

(** *** [run] (lines 261-276) *)

(** Lines 268-275: one repository, with the two [except] clauses. *)
Definition guarded_update (versions : option (list string)) (repo : string) : M E unit :=
  try_except (update_extension repo versions)
    (fun e => is_KeyboardInterrupt e || is_Exception e)
    (fun e =>
       if is_KeyboardInterrupt e then
         logging ERROR (format_exc e) ;;
         raise (SystemExit (Some 1))     (* sys.exit(1) *)
       else
         logging ERROR (format_exc e) ;;
         logging ERROR ("Updating " +:+ repo +:+ " failed, skipping")).

(** Lines 263-264: [if not repos: repos = self.repo_list] *)
Definition repos_for (repos : option (list string)) : M E (list string) :=
  match repos with
  | Some (r :: rs) => ret (r :: rs)
  | Some [] | None => repo_list
  end.

(** Lines 263-276: the batch, once [init] has returned. *)
Definition process (repos versions : option (list string)) : M E unit :=
  repos <- repos_for repos ;;
  logging INFO ("Processing " +:+ pretty (length repos) +:+ " " +:+ REPO_TYPE conf) ;;
  logging INFO ("Starting update of all " +:+ REPO_TYPE conf +:+ "...") ;;
  for_each repos (guarded_update versions) ;;
  logging INFO ("Finished update of all " +:+ REPO_TYPE conf +:+ "!").

Definition run (repos versions : option (list string)) : M E unit :=
  init ;;
  process repos versions.

End Pipeline.


(** ** A concrete host, for running the pipeline on examples

    The outside world is a clock.  Every tool succeeds unless told
    otherwise: [master] says whether [origin/master] exists at the remote,
    [short] is what [git rev-parse --short=7 HEAD] prints, [live] is the one
    pid that can be signalled. *)

Module Sample.

Definition sha : string := "1a2b3c4d5e6f708192a3b4c5d6e7f8091a2b3c4d".

Definition arg (i : nat) (a : list string) : string := nth i a ""%string.

Definition is_git (sub : string) (a : list string) : bool :=
  bool_decide (arg 0 a = "git"%string) && bool_decide (arg 1 a = sub).

Definition answer (master : bool) (short : string)
    (a : list string) (t : tree) (e : Z) : outcome * tree * Z :=
  if is_git "reset" a then
    (if master then Done "HEAD is now at 1a2b3c4" else Fault ExitNonZero, t, e)
  else if is_git "clean" a && bool_decide (arg 2 a = "-ffdx"%string) then
    (* untracked files go, the two the script writes among them *)
    (Done "", Tree (t_head t) (t_composer t) None None (t_entries t), e)
  else if is_git "checkout" a then
    (* a remote-tracking branch is checked out detached *)
    (Done "", Tree (Some (sha +:+ LF)) (t_composer t) (t_gitinfo t) (t_version t)
                   (t_entries t), e)
  else if is_git "rev-parse" a then
    (Done (if bool_decide (arg 2 a = "HEAD"%string) then sha +:+ LF else short +:+ LF),
     t, e)
  else if is_git "show" a then (Done "1700000000", t, e)
  else (Done "", t, e).

Definition fresh_clone : tree :=
  Tree (Some ("ref: refs/heads/master" +:+ LF)) None None None [].

Definition host (master : bool) (short : string) (live : Z) : Host Z := {|
  getpid := 777;
  kill0 := fun pid _ => if bool_decide (pid = live) then Delivered else NoSuchProcess;
  lock_writable := fun _ => true;
  in_tree := answer master short;
  clone := fun _ e => (Made fresh_clone, e);
  tar := fun a _ e => (Made (File ("archive of " +:+ arg 5 a) e), e + 1);
  plain := fun _ e => (Done ("2024-05-20T03:00:00" +:+ LF), e);
  mkdir := fun _ e => (Done "", e);
  api_repos := fun e => (inr ["Foo"; "Bar"]%string, e);
  api_config := fun e => (inr (ExtConfig (Some ["REL1_39"; "REL1_40"]%string) true), e);
  stray_exists := fun _ _ _ => false;
  stray_glob := fun _ _ _ => [];
  stray_unlink := fun _ _ e => (false, e);
  stray_move := fun _ _ _ e => (false, e);
  randint := fun e => (42, e);
  json_loads := fun _ => Some (JObject [])
|}.

Definition conf (force : bool) : Conf := {|
  GIT_URL := "https://gerrit.example.org/r/mediawiki/extensions/%s";
  SRC_PATH := "/var/tmp/extdist";
  DIST_PATH := "/srv/dist";
  REPO_TYPE := "extensions";
  COMPOSER := None;
  force := force
|}.

(** A started set-up: both directories exist and are empty. *)
Definition world (lock : lock_file) (sd dd : gmap string node) : World Z := {|
  pid_file := lock;
  src := Some sd;
  dist := Some dd;
  cwd := CwdStart;
  _repo_list := None;
  _extension_config := None;
  log := [];
  ext := 1000
|}.

Definition old_tarball : node := NFile (File "archive of last week" 900).

(** The names in a directory, sorted by the map. *)
Definition names (d : option (gmap string node)) : list string :=
  match d with
  | Some m => map fst (map_to_list m)
  | None => []
  end.

Definition lookup_in (d : option (gmap string node)) (n : string) : option node :=
  match d with
  | Some m => m !! n
  | None => None
  end.

(** Three hosts: all is well; the remote has no [master] branch; seven
    digits do not single out the commit of HEAD, so git prints eight. *)
Definition h : Host Z := host true "1a2b3c4" 4242.
Definition h_no_master : Host Z := host false "1a2b3c4" 4242.
Definition h_long : Host Z := host true "1a2b3c4d" 4242.

Definition mirrors : gmap string node := {[ "Foo"%string := NDir fresh_clone ]}.

Definition published : gmap string node :=
  {[ "Foo-REL1_39.tar.gz"%string := old_tarball ]}.

Definition w_fresh : World Z := world LockAbsent mirrors ∅.
Definition w_published : World Z := world LockAbsent mirrors published.

(** A tarball of another repository, left in EXT_PATH by a run that was
    cut short. *)
Definition stray : file := File "archive of Bar" 800.

(** The place of the mirror of Foo is taken by a regular file. *)
Definition w_broken : World Z :=
  world LockAbsent {[ "Foo"%string := NFile stray ]} ∅.

(** A mirror that is on the local branch [main]. *)
Definition on_main : tree :=
  Tree (Some ("ref: refs/heads/main" +:+ LF)) None None None [].
Definition w_on_main : World Z :=
  set_cwd (CwdMirror "Foo") (world LockAbsent {[ "Foo"%string := NDir on_main ]} ∅).

Definition url : string := "https://gerrit.example.org/r/mediawiki/extensions/Foo".

End Sample.

(** ** More set-ups: what the defaults of [Sample] do not reach *)

Module Cases.









(** The site information has the snapshots, but no entry ['list']. *)
Definition h_no_list : Host Z := {|
  getpid := getpid Sample.h;
  kill0 := kill0 Sample.h;
  lock_writable := lock_writable Sample.h;
  in_tree := in_tree Sample.h;
  clone := clone Sample.h;
  tar := tar Sample.h;
  plain := plain Sample.h;
  mkdir := mkdir Sample.h;
  api_repos := api_repos Sample.h;
  api_config := fun e => (inr (ExtConfig (Some ["REL1_39"%string]) false), e + 1);
  stray_exists := stray_exists Sample.h;
  stray_glob := stray_glob Sample.h;
  stray_unlink := stray_unlink Sample.h;
  stray_move := stray_move Sample.h;
  randint := randint Sample.h;
  json_loads := json_loads Sample.h
|}.

(** The template of the clone URL has lost its placeholder. *)
Definition conf_no_placeholder : Conf := {|
  GIT_URL := "https://gerrit.example.org/r/mediawiki/extensions/";
  SRC_PATH := SRC_PATH (Sample.conf false);
  DIST_PATH := DIST_PATH (Sample.conf false);
  REPO_TYPE := REPO_TYPE (Sample.conf false);
  COMPOSER := None;
  force := false
|}.

(** Before the first run: neither EXT_PATH nor DIST_PATH exists. *)
Definition w_unstarted : World Z :=
  set_src None (set_dist None Sample.w_fresh).


(** Two mirrors, and in DIST_PATH a page that is no tarball. *)
Definition index_page : node := NFile (File "<html></html>" 500).

Definition w_two_mirrors : World Z :=
  Sample.world LockAbsent
    (<["Bar"%string := NDir Sample.on_main]> Sample.mirrors)
    {[ "index.html"%string := index_page ]}.


(** In DIST_PATH the name of the tarball of (Foo, REL1_39) is taken by a
    directory, and that directory has an entry of the same name: a move
    into it is refused. *)
Definition blocked : gmap string node :=
  {[ "Foo-REL1_39.tar.gz"%string
     := NDir (Tree None None None None ["Foo-REL1_39.tar.gz"%string]) ]}.

Definition w_blocked : World Z := Sample.world LockAbsent Sample.mirrors blocked.




(** The list of supported branches has been fetched. *)
Definition w_fetched : World Z :=
  set_extension_config (Some (ExtConfig (Some ["REL1_39"%string]) true)) Sample.w_fresh.

End Cases.

(** ** Vocabulary of the properties *)

Section Vocabulary.
Context {E : Type}.

(** Invariants: [keeps P m] says that [m] leaves [P] true, however it
    ends. *)
Definition keeps {A} (P : World E → Prop) (m : M E A) : Prop :=
  ∀ w r w', m w = (r, w') → P w → P w'.

(** Exceptions that can escape: [tame m] says that [m] raises nothing
    but subclasses of [Exception] and the operator's interrupt. *)
Definition tame {A} (m : M E A) : Prop :=
  ∀ w e w', m w = (Raise e, w') → is_KeyboardInterrupt e || is_Exception e = true.

(** The entry [n] of EXT_PATH and of DIST_PATH. *)
Definition src_at (n : string) (w : World E) : option node :=
  match src w with
  | Some sd => sd !! n
  | None => None
  end.

Definition dist_at (n : string) (w : World E) : option node :=
  match dist w with
  | Some dd => dd !! n
  | None => None
  end.

(** Two invariants: the entry [n] of DIST_PATH is [v]; there is no entry [n]
    in EXT_PATH. *)
Definition dist_is (n : string) (v : option node) (w : World E) : Prop :=
  dist_at n w = v.






(** The character [c] occurs in [s]. *)
Fixpoint has_char (c : ascii) (s : string) : bool :=
  match s with
  | EmptyString => false
  | String a s' => Ascii.eqb a c || has_char c s'
  end.

(** A name without the characters that [glob] reads as wildcards. *)
Definition wildcard_free (s : string) : bool :=
  negb (has_char "*" s) && negb (has_char "?" s) && negb (has_char "[" s).

(** [c.join(fields)], the inverse of [split]. *)
Fixpoint join_fields (c : ascii) (fields : list string) : string :=
  match fields with
  | [] => EmptyString
  | [f] => f
  | f :: fs => f +:+ String c (join_fields c fs)
  end.

(** What is left of [update_extension] when the branches [bs] remain. *)
Definition rest_of_update (host : Host E) (conf : Conf) (x repo_url : string)
    (bs : list string) : M E unit :=
  bind (for_each bs (update_branch host conf x repo_url))
    (fun _ => bind (move_tarballs host conf) (fun _ => finish_update host conf x)).

(** The world after one more line in the log. *)
Definition logged (l : level) (msg : string) (w : World E) : World E :=
  set_log (log w ++ [(l, msg)]) w.

(** More invariants: the lock file is [v]; the entry [n] of EXT_PATH is [v]
    and is not the working directory. *)
Definition lock_is (v : lock_file) (w : World E) : Prop :=
  pid_file w = v.



(** The list of supported branches has been fetched, and is [l]. *)
Definition snapshots_known (l : list string) (w : World E) : Prop :=
  ∃ c, _extension_config w = Some c ∧ snapshots c = Some l.








End Vocabulary.

(** How a batch goes, repository by repository: an update that returns, or
    that fails with an [Exception] (logged, then on to the next), or that
    is interrupted (logged, then [SystemExit(1)] and nothing more). *)
Inductive batch {E : Type} (host : Host E) (conf : Conf)
    (versions : option (list string))
    : list string → World E → res unit → World E → Prop :=
| batch_done w :
    batch host conf versions [] w (Ok tt) w
| batch_updated repo rest w w1 r w2 :
    update_extension host conf repo versions w = (Ok tt, w1) →
    batch host conf versions rest w1 r w2 →
    batch host conf versions (repo :: rest) w r w2
| batch_failed repo rest w e w1 r w2 :
    update_extension host conf repo versions w = (Raise e, w1) →
    is_Exception e = true →
    batch host conf versions rest
      (logged ERROR ("Updating " +:+ repo +:+ " failed, skipping")
         (logged ERROR (format_exc e) w1)) r w2 →
    batch host conf versions (repo :: rest) w r w2
| batch_interrupted repo rest w w1 :
    update_extension host conf repo versions w = (Raise KeyboardInterrupt, w1) →
    batch host conf versions (repo :: rest) w
      (Raise (SystemExit (Some 1))) (logged ERROR (format_exc KeyboardInterrupt) w1).


(** * Properties *)

(** ** The string primitives on examples *)

Example split_head : Py.last_field (Py.split "/" "refs/heads/main") = "main"%string.
Proof. reflexivity. Qed.

Example split_trailing : Py.split "/" "a/b/" = ["a"; "b"; ""]%string.
Proof. reflexivity. Qed.

Example strip_output : Py.strip (" 1a2b3c4" +:+ LF) = "1a2b3c4"%string.
Proof. reflexivity. Qed.

Example int_accepts : Py.int " 12_34 " = Some 1234 ∧ Py.int "-7" = Some (-7).
Proof. split; reflexivity. Qed.

Example int_rejects : Py.int "" = None ∧ Py.int "12__3" = None ∧ Py.int "- 7" = None.
Proof. repeat split; reflexivity. Qed.

(** The file separator (28) is white space for [strip], not for [int]. *)
Example int_separator :
  let fs := String (ascii_of_nat 28) EmptyString in
  Py.strip (fs +:+ "4242") = "4242"%string ∧ Py.int (fs +:+ "4242") = None.
Proof. split; reflexivity. Qed.

Example percent_url : Py.percent "https://x/%s" "Foo" = Some "https://x/Foo"%string.
Proof. reflexivity. Qed.

Example glob_examples :
  Py.glob_match "Foo-main-*.tar.gz" "Foo-main-1a2b3c4.tar.gz" = true
  ∧ Py.glob_match "*.tar.gz" ".x.tar.gz" = false
  ∧ Py.glob_match "*.tar.gz" "a.tar.gz" = true.
Proof. repeat split; reflexivity. Qed.

Example str_pid : Py.str 4242 = "4242"%string.
Proof. reflexivity. Qed.

(** ** Reasoning about the monad *)

Section Monad.
Context {E : Type}.
Implicit Types (w : World E) (P : World E → Prop).

Lemma bind_Ok {A B} (m : M E A) (k : A → M E B) w a w' :
  m w = (Ok a, w') → bind m k w = k a w'.
Proof. intros H. unfold bind. by rewrite H. Qed.

Lemma bind_Raise {A B} (m : M E A) (k : A → M E B) w e w' :
  m w = (Raise e, w') → bind m k w = (Raise e, w').
Proof. intros H. unfold bind. by rewrite H. Qed.

Lemma bind_inv {A B} (m : M E A) (k : A → M E B) w r w2 :
  bind m k w = (r, w2) →
  (∃ a w1, m w = (Ok a, w1) ∧ k a w1 = (r, w2)) ∨
  (∃ e, m w = (Raise e, w2) ∧ r = Raise e).
Proof.
  unfold bind. destruct (m w) as [[a|e] w1]; intros H.
  - left. eauto.
  - right. inversion H; subst. eauto.
Qed.

Lemma bind_assoc {A B C} (m : M E A) (k : A → M E B) (h : B → M E C) w :
  bind (bind m k) h w = bind m (fun a => bind (k a) h) w.
Proof. unfold bind. destruct (m w) as [[a|e] w1]; reflexivity. Qed.

Lemma for_each_cons {A} (x : A) l (body : A → M E unit) w :
  for_each (x :: l) body w = bind (body x) (fun _ => for_each l body) w.
Proof. reflexivity. Qed.

Lemma keeps_ret {A} P (a : A) : keeps P (ret a).
Proof. intros w r w' H HP. inversion H; by subst. Qed.

Lemma keeps_raise {A} P e : keeps P (@raise E A e).
Proof. intros w r w' H HP. inversion H; by subst. Qed.

Lemma keeps_gets {A} P (f : World E → A) : keeps P (gets f).
Proof. intros w r w' H HP. inversion H; by subst. Qed.

Lemma keeps_modify P (f : World E → World E) :
  (∀ w, P w → P (f w)) → keeps P (modify f).
Proof. intros Hf w r w' H HP. inversion H; subst. auto. Qed.

Lemma keeps_bind {A B} P (m : M E A) (k : A → M E B) :
  keeps P m → (∀ a, keeps P (k a)) → keeps P (bind m k).
Proof.
  intros Hm Hk w r w2 H HP.
  apply bind_inv in H as [(a & w1 & H1 & H2)|(e & H1 & _)].
  - eapply Hk; eauto.
  - eapply Hm; eauto.
Qed.

Lemma keeps_try_except {A} P (m : M E A) c h :
  keeps P m → (∀ e, keeps P (h e)) → keeps P (try_except m c h).
Proof.
  intros Hm Hh w r w2 H HP. unfold try_except in H.
  destruct (m w) as [[a|e] w1] eqn:Hmw.
  - inversion H; subst. eapply Hm; eauto.
  - destruct (c e).
    + eapply Hh; eauto.
    + inversion H; subst. eapply Hm; eauto.
Qed.

Lemma keeps_for_each_in {A} P (l : list A) (body : A → M E unit) :
  (∀ x, x ∈ l → keeps P (body x)) → keeps P (for_each l body).
Proof.
  induction l as [|x l IH]; intros Hb; simpl.
  - apply keeps_ret.
  - apply keeps_bind.
    + apply Hb. left.
    + intros _. apply IH. intros y Hy. apply Hb. by right.
Qed.

Lemma keeps_for_each {A} P (l : list A) (body : A → M E unit) :
  (∀ x, keeps P (body x)) → keeps P (for_each l body).
Proof. intros Hb. apply keeps_for_each_in. auto. Qed.

Lemma tame_ret {A} (a : A) : tame (@ret E A a).
Proof. intros w e w' H. inversion H. Qed.

Lemma tame_gets {A} (f : World E → A) : tame (gets f).
Proof. intros w e w' H. inversion H. Qed.

Lemma tame_modify (f : World E → World E) : tame (modify f).
Proof. intros w e w' H. inversion H. Qed.

Lemma tame_raise {A} e :
  is_KeyboardInterrupt e || is_Exception e = true → tame (@raise E A e).
Proof. intros He w e' w' H. inversion H; by subst. Qed.

Lemma tame_bind {A B} (m : M E A) (k : A → M E B) :
  tame m → (∀ a, tame (k a)) → tame (bind m k).
Proof.
  intros Hm Hk w e w2 H.
  apply bind_inv in H as [(a & w1 & H1 & H2)|(e' & H1 & He)].
  - eapply Hk; eauto.
  - inversion He; subst. eapply Hm; eauto.
Qed.

Lemma tame_try_except {A} (m : M E A) c h :
  tame m → (∀ e, tame (h e)) → tame (try_except m c h).
Proof.
  intros Hm Hh w e w2 H. unfold try_except in H.
  destruct (m w) as [[a|e'] w1] eqn:Hmw; [inversion H|].
  destruct (c e').
  - eapply Hh; eauto.
  - inversion H; subst. eapply Hm; eauto.
Qed.

Lemma tame_for_each {A} (l : list A) (body : A → M E unit) :
  (∀ x, tame (body x)) → tame (for_each l body).
Proof.
  intros Hb. induction l as [|x l IH]; simpl.
  - apply tame_ret.
  - apply tame_bind; auto.
Qed.

Lemma tame_of_outcome o w e w' :
  of_outcome o w = (Raise e, w') → is_KeyboardInterrupt e || is_Exception e = true.
Proof.
  destruct o as [out|f]; simpl; intros H; inversion H; subst.
  by destruct f.
Qed.

End Monad.

(** ** Provenance: the branch name (lines 196-209) *)

Lemma split_nonempty c s : Py.split c s ≠ [].
Proof.
  destruct s as [|a s]; simpl; [done|].
  destruct (Ascii.eqb a c); [done|]. by destruct (Py.split c s).
Qed.

Lemma join_fields_cons c a f fs :
  join_fields c (String a f :: fs) = String a (join_fields c (f :: fs)).
Proof. by destruct fs. Qed.

Lemma join_split c s : join_fields c (Py.split c s) = s.
Proof.
  induction s as [|a s IH]; [done|]. simpl.
  pose proof (split_nonempty c s) as Hne.
  destruct (Ascii.eqb a c) eqn:Hac.
  - apply Ascii.eqb_eq in Hac as ->.
    destruct (Py.split c s) as [|f fs]; [done|].
    simpl in *. by rewrite IH.
  - destruct (Py.split c s) as [|f fs]; [done|].
    by rewrite join_fields_cons, IH.
Qed.

Lemma split_fields_clean c s :
  Forall (fun f => has_char c f = false) (Py.split c s).
Proof.
  induction s as [|a s IH]; simpl.
  - by constructor.
  - destruct (Ascii.eqb a c) eqn:Hac.
    + by constructor.
    + destruct (Py.split c s) as [|f fs]; [by repeat constructor; simpl; rewrite Hac|].
      inversion IH; subst. constructor; [|done]. simpl. by rewrite Hac.
Qed.

Lemma append_cons (x : ascii) (a b : string) : String x a +:+ b = String x (a +:+ b).
Proof. reflexivity. Qed.

Lemma append_assoc (a b c : string) : (a +:+ b) +:+ c = a +:+ (b +:+ c).
Proof. induction a as [|x a IH]; [done|]. by rewrite !append_cons, IH. Qed.

Lemma join_fields_last c l :
  l ≠ [] →
  join_fields c l = List.last l ""%string ∨
  ∃ p, join_fields c l = p +:+ String c (List.last l ""%string).
Proof.
  induction l as [|f [|g l] IH]; intros Hne; [done| by left |].
  change (List.last (f :: g :: l) ""%string) with (List.last (g :: l) ""%string).
  change (join_fields c (f :: g :: l))
    with (f +:+ String c (join_fields c (g :: l))).
  right. destruct IH as [IH|[p IH]]; [done| |]; rewrite IH.
  - by exists f.
  - exists (f +:+ String c p). by rewrite append_assoc.
Qed.

(** The last field of [s.split(c)] has no [c] in it, and it is [s] itself or
    what follows the last [c] of [s]. *)
Lemma last_field_split c s :
  let b := Py.last_field (Py.split c s) in
  has_char c b = false ∧ (s = b ∨ ∃ p, s = p +:+ String c b).
Proof.
  unfold Py.last_field. split.
  - pose proof (split_fields_clean c s) as Hall.
    pose proof (split_nonempty c s) as Hne.
    induction Hall as [|f [|g l] Hf Hall IH]; [done|done|].
    apply IH. done.
  - destruct (join_fields_last c (Py.split c s) (split_nonempty c s)) as [H|[p H]];
      rewrite join_split in H; [by left | right; by exists p].
Qed.

Lemma startswith_append p s :
  Py.startswith p s = true → ∃ r, s = p +:+ r.
Proof.
  revert s. induction p as [|a p IH]; intros s H.
  - by exists s.
  - destruct s as [|b s]; [done|]. simpl in H.
    destruct (Ascii.eqb a b) eqn:Hab; [|done].
    apply Ascii.eqb_eq in Hab as ->.
    destruct (IH _ H) as [r ->]. by exists r.
Qed.

Lemma has_char_append c p r :
  has_char c (p +:+ r) = has_char c p || has_char c r.
Proof.
  induction p as [|a p IH]; [done|].
  rewrite append_cons. simpl. rewrite IH. by rewrite orb_assoc.
Qed.

(** A head that starts with [refs/heads] has a last ["/"], and the branch
    name is what follows it. *)
Lemma branch_of_head_local head :
  Py.startswith "refs/heads" head = true →
  has_char "/" (branch_of_head head) = false ∧
  ∃ p, head = p +:+ "/" +:+ branch_of_head head.
Proof.
  intros H. unfold branch_of_head. rewrite H.
  destruct (last_field_split "/" head) as [Hclean [Hwhole|[p Hp]]].
  - exfalso. apply startswith_append in H as [r Hr].
    rewrite Hwhole in Hr at 1. rewrite Hr, has_char_append in Hclean. done.
  - split; [done|]. by exists p.
Qed.

Lemma branch_of_head_detached head :
  Py.startswith "refs/heads" head = false → branch_of_head head = head.
Proof. intros H. unfold branch_of_head. by rewrite H. Qed.

(** ** The effect of the primitives on the world *)

Section Primitives.
Context {E : Type} (host : Host E) (conf : Conf).
Implicit Types (w : World E) (P : World E → Prop).

Lemma cwd_tree_put_tree w m t t' :
  cwd_tree w = Some (m, t) → cwd_tree (put_tree m t' w) = Some (m, t').
Proof.
  unfold cwd_tree, put_tree. destruct (cwd w) as [| |m'] eqn:Hc; [done..|].
  destruct (src w) as [sd|] eqn:Hs; [|done].
  destruct (sd !! m') as [[f|t0]|] eqn:Hl; [done| |done].
  intros [= -> ->]. simpl. rewrite Hc. by rewrite lookup_insert_eq.
Qed.


Lemma cwd_tree_set_log w l : cwd_tree (set_log l w) = cwd_tree w.
Proof. reflexivity. Qed.

(** A command run in the mirror changes that mirror and the outside world,
    and nothing else. *)
Lemma shell_in_tree_inv a w r w' :
  shell_exec host conf (InTree a) w = (r, w') →
  (cwd_tree w = None ∧ r = Raise OSError ∧ w' = w) ∨
  (∃ m t, cwd_tree w = Some (m, t) ∧
     let '(o, t', e') := in_tree host a t (ext w) in
     w' = put_tree m t' (set_ext e' w) ∧
     r = match o with Done out => Ok out | Fault f => Raise (exn_of_fault f) end).
Proof.
  unfold shell_exec. simpl. destruct (cwd_tree w) as [[m t]|] eqn:Hc.
  - intros H. right. exists m, t. split; [done|].
    destruct (in_tree host a t (ext w)) as [[o t'] e'].
    destruct o; simpl in H; inversion H; by subst.
  - intros [= <- <-]. by left.
Qed.

Lemma shell_in_tree_cwd_tree a w r w' m t :
  shell_exec host conf (InTree a) w = (r, w') →
  cwd_tree w = Some (m, t) → ∃ t', cwd_tree w' = Some (m, t').
Proof.
  intros H Hc. apply shell_in_tree_inv in H as [(Hn & _)|(m' & t0 & Hc' & H)].
  - congruence.
  - rewrite Hc in Hc'. injection Hc' as <- <-.
    destruct (in_tree host a t (ext w)) as [[o t'] e']. destruct H as [-> _].
    exists t'. apply (cwd_tree_put_tree _ m t). exact Hc.
Qed.

Lemma read_in_tree_inv field w r w' :
  read_in_tree field w = (r, w') →
  w' = w ∧ ∀ s, r = Ok s → ∃ m t, cwd_tree w = Some (m, t) ∧ field t = Some s.
Proof.
  unfold read_in_tree. destruct (cwd_tree w) as [[m t]|]; [|by intros [= <- <-]].
  destruct (field t) as [s|] eqn:Hf; intros [= <- <-]; [|done].
  split; [done|]. intros ? [= <-]. eauto.
Qed.

Lemma write_in_tree_inv g w r w' :
  write_in_tree g w = (r, w') →
  (cwd_tree w = None ∧ r = Raise OSError ∧ w' = w) ∨
  (∃ m t, cwd_tree w = Some (m, t) ∧ r = Ok tt ∧ w' = put_tree m (g t) w).
Proof.
  unfold write_in_tree. destruct (cwd_tree w) as [[m t]|]; intros [= <- <-].
  - right. eauto.
  - by left.
Qed.

Lemma git_url_inv x w r w' :
  git_url conf x w = (r, w') → w' = w.
Proof.
  unfold git_url. destruct (Py.percent _ _); by intros [= <- <-].
Qed.



Lemma glob_dist_reach pat w :
  dist_in_reach conf w = true → glob_dist host conf pat w = glob_here pat w.
Proof. intros Hr. unfold glob_dist. by rewrite Hr. Qed.





(** The two ways of [supported_versions]: the object is there, or it is
    fetched. *)
Lemma supported_versions_kept w c :
  _extension_config w = Some c →
  supported_versions host w
  = (match snapshots c with
     | Some l => Ok l
     | None => Raise (OtherException "KeyError")
     end, w).
Proof.
  intros Hc. unfold supported_versions, bind, gets, ret, raise.
  rewrite Hc. simpl. rewrite Hc. by destruct (snapshots c).
Qed.

Lemma supported_versions_fetched w :
  _extension_config w = None →
  supported_versions host w
  = let wl := set_log (log w ++ [(DEBUG,
                 "Fetching ExtensionDistributor config from API..."%string)]) w in
    match api_config host (ext w) with
    | (inl f, e') => (Raise (exn_of_fault f), set_ext e' wl)
    | (inr c, e') =>
        let w' := set_extension_config (Some c) (set_ext e' wl) in
        match snapshots c with
        | Some l =>
            if has_list c then (Ok l, w')
            else (Raise (OtherException "KeyError"), w')
        | None => (Raise (OtherException "KeyError"), w')
        end
    end.
Proof.
  intros Hc.
  unfold supported_versions, fetch_extension_config, bind, gets, logging, modify,
    ret, raise.
  rewrite Hc. simpl.
  destruct (api_config host (ext w)) as [[f|c] e']; [done|].
  destruct (snapshots c) as [l|] eqn:Hl; [|done].
  destruct (has_list c); [|done]. simpl. by rewrite Hl.
Qed.

(** Reading the supported branches touches neither the file system nor the
    lock, and raises nothing but what the request does and [KeyError]. *)
Lemma supported_versions_frame w r w' :
  supported_versions host w = (r, w') →
  pid_file w' = pid_file w ∧ src w' = src w ∧ dist w' = dist w ∧ cwd w' = cwd w ∧
  (∀ e, r = Raise e →
     e = OtherException "KeyError" ∨ ∃ f, e = exn_of_fault f).
Proof.
  unfold supported_versions, fetch_extension_config, bind, gets, logging, modify,
    ret, raise.
  intros H.
  repeat (match goal with
          | H : context [match ?x with _ => _ end] |- _ => destruct x eqn:?
          end; simplify_eq; simpl in * );
    simplify_eq; simpl; repeat split; try done; intros ? [= <-]; eauto.
Qed.

End Primitives.

(** ** The branch name of the provenance record (lines 196-209) *)

Section Provenance.
Context {E : Type} (host : Host E) (conf : Conf).
Implicit Types w : World E.

(** On every host: when [write_gitinfo] succeeds, the record it leaves in
    [gitinfo.json] has for [head] the text of [.git/HEAD] as it was read,
    without its first five characters when it starts with ["ref:"], and
    for [branch]: when that head starts with [refs/heads], what follows its
    last ["/"], to the end of the text; otherwise the head as it is. *)
Lemma gitinfo_branch_name x w w' :
  write_gitinfo host conf x w = (Ok tt, w') →
  ∃ m t raw t' g,
    cwd_tree w = Some (m, t) ∧ t_head t = Some raw ∧
    cwd_tree w' = Some (m, t') ∧ t_gitinfo t' = Some g ∧
    gi_head g = (if Py.startswith "ref:" raw then Py.slice_from 5 raw else raw) ∧
    (Py.startswith "refs/heads" (gi_head g) = true →
       has_char "/" (gi_branch g) = false ∧
       ∃ p, gi_head g = p +:+ "/" +:+ gi_branch g) ∧
    (Py.startswith "refs/heads" (gi_head g) = false → gi_branch g = gi_head g).
Proof.
  unfold write_gitinfo. intros H.
  apply bind_inv in H as [(raw & w1 & Hread & H)|(e & _ & [=])].
  apply read_in_tree_inv in Hread as [-> Hraw].
  destruct (Hraw raw eq_refl) as (m & t & Hc & Hhead).
  apply bind_inv in H as [(sha1 & w2 & Hsha & H)|(e & _ & [=])].
  destruct (shell_in_tree_cwd_tree _ _ _ _ _ _ _ _ Hsha Hc) as [t2 Hc2].
  apply bind_inv in H as [(date & w3 & Hdate & H)|(e & _ & [=])].
  destruct (shell_in_tree_cwd_tree _ _ _ _ _ _ _ _ Hdate Hc2) as [t3 Hc3].
  apply bind_inv in H as [(url & w4 & Hurl & H)|(e & _ & [=])].
  apply git_url_inv in Hurl as ->.
  apply write_in_tree_inv in H as [(Hn & _)|(m' & t' & Hc' & _ & ->)]; [congruence|].
  rewrite Hc3 in Hc'. injection Hc' as <- <-.
  eexists m, t, raw, _, _. split; [done|]. split; [done|].
  split; [by eapply cwd_tree_put_tree|]. simpl.
  split; [done|]. split; [done|]. split.
  - apply branch_of_head_local.
  - apply branch_of_head_detached.
Qed.

End Provenance.

(** ** C2, C9: the lock (lines 116-125, 239-259) *)

Section Lock.
Context {E : Type} (host : Host E) (conf : Conf).
Implicit Types w : World E.





Lemma create_pid_file_refused w :
  lock_writable host (ext w) = false →
  create_pid_file host w = (Raise OSError, w).
Proof. intros Hw. unfold create_pid_file, bind, gets. by rewrite Hw. Qed.

Lemma create_pid_file_inv w w' :
  create_pid_file host w = (Ok tt, w') →
  lock_writable host (ext w) = true ∧
  w' = logged INFO "Creating pid file"
         (set_pid_file (LockText (Py.str (getpid host))) w).
Proof.
  unfold create_pid_file, bind, gets.
  destruct (lock_writable host (ext w)); [|done]. by intros [= <-].
Qed.


End Lock.

(** ** C7: the decision to skip (lines 181-184) *)

Section Skip.
Context {E : Type} (host : Host E) (conf : Conf).
Implicit Types w : World E.

(** C7 (as amended).  When the force flag is unset and the tarball of the
    key is already published, the iteration ends at the decision: no
    [gitinfo.json] and no [version] is written, the world is what the
    pinning left plus one line in the log. *)
Theorem skip_ends_iteration x repo_url branch rev w0 w :
  force conf = false →
  pin host conf x repo_url branch w0 = (Ok (Some rev), w) →
  exists_in_dist host conf (tarball_fname x branch) w = true →
  publish host conf x branch rev w
  = (Ok tt, logged DEBUG "No updates to branch, tarball already exists." w) ∧
  update_branch host conf x repo_url branch w0
  = (Ok tt, logged DEBUG "No updates to branch, tarball already exists." w) ∧
  cwd_tree (logged DEBUG "No updates to branch, tarball already exists." w)
  = cwd_tree w.
Proof.
  intros Hforce Hpin Hthere.
  assert (publish host conf x branch rev w
          = (Ok tt, logged DEBUG "No updates to branch, tarball already exists." w))
    as Hpub.
  { unfold publish, bind, gets. by rewrite Hforce, Hthere. }
  split; [done|]. split; [|done].
  unfold update_branch. by rewrite (bind_Ok _ _ _ _ _ Hpin).
Qed.

End Skip.

(** ** What [update_extension] can raise *)

Section Tame.
Context {E : Type} (host : Host E) (conf : Conf).
Implicit Types w : World E.

Local Ltac tame_prim :=
  let H := fresh "H" in
  intros ? ? ? H;
  repeat (simplify_eq; simpl in *; try done;
          match goal with
          | H : context [match ?x with _ => _ end] |- _ => destruct x eqn:?
          | f : fault |- _ => destruct f
          | H : of_outcome _ _ = (Raise _, _) |- _ => apply tame_of_outcome in H
          end);
  simplify_eq; try done.

Lemma tame_logging l msg : tame (logging (E:=E) l msg).
Proof. apply tame_modify. Qed.

Lemma tame_shell_exec k : tame (shell_exec host conf k).
Proof. unfold shell_exec. destruct k; tame_prim. Qed.

Lemma tame_chdir_ext : tame (chdir_ext (E:=E)).
Proof. unfold chdir_ext. tame_prim. Qed.

Lemma tame_chdir_mirror x : tame (chdir_mirror (E:=E) x).
Proof. unfold chdir_mirror. tame_prim. Qed.

Lemma tame_unlink_dist n : tame (unlink_dist host conf n).
Proof. unfold unlink_dist, unlink_here. tame_prim. Qed.

Lemma tame_shutil_move n : tame (shutil_move host conf n).
Proof. unfold shutil_move, move_here. tame_prim. Qed.

Lemma tame_read_in_tree field : tame (read_in_tree (E:=E) field).
Proof. unfold read_in_tree. tame_prim. Qed.

Lemma tame_write_in_tree g : tame (write_in_tree (E:=E) g).
Proof. unfold write_in_tree. tame_prim. Qed.

Lemma tame_has_require j : tame (has_require (E:=E) j).
Proof. unfold has_require, ret, raise. destruct j; tame_prim. Qed.

Lemma tame_git_url x : tame (git_url (E:=E) conf x).
Proof. unfold git_url, ret, raise. tame_prim. Qed.

Local Ltac tame_step :=
  lazymatch goal with
  | |- ∀ _, _ => intro
  | |- tame (bind _ _) => apply tame_bind
  | |- tame (try_except _ _ _) => apply tame_try_except
  | |- tame (for_each _ _) => apply tame_for_each
  | |- tame (ret _) => apply tame_ret
  | |- tame (gets _) => apply tame_gets
  | |- tame (modify _) => apply tame_modify
  | |- tame (raise _) => apply tame_raise; reflexivity
  | |- tame (logging _ _) => apply tame_logging
  | |- tame (shell_exec _ _ _) => apply tame_shell_exec
  | |- tame chdir_ext => apply tame_chdir_ext
  | |- tame (chdir_mirror _) => apply tame_chdir_mirror
  | |- tame (unlink_dist _ _ _) => apply tame_unlink_dist
  | |- tame (shutil_move _ _ _) => apply tame_shutil_move
  | |- tame (read_in_tree _) => apply tame_read_in_tree
  | |- tame (write_in_tree _) => apply tame_write_in_tree
  | |- tame (has_require _) => apply tame_has_require
  | |- tame (git_url _ _) => apply tame_git_url
  | |- tame (if ?b then _ else _) => destruct b
  | |- tame (match ?x with _ => _ end) => destruct x
  end.

Lemma tame_supported_versions : tame (supported_versions host).
Proof.
  intros w e w' H.
  apply supported_versions_frame in H as (_ & _ & _ & _ & He).
  destruct (He e eq_refl) as [->|[f ->]]; [done | by destruct f].
Qed.

Lemma tame_composer_install x : tame (composer_install host conf x).
Proof. unfold composer_install. repeat tame_step. Qed.

Lemma tame_build x branch rev : tame (build host conf x branch rev).
Proof.
  unfold build, write_gitinfo, write_version, prune. repeat tame_step.
  apply tame_composer_install.
Qed.

Lemma tame_pin x repo_url branch : tame (pin host conf x repo_url branch).
Proof.
  unfold pin, approach, refresh_remote, checkout_branch, guarded_checkout,
    settle_checkout.
  repeat tame_step.
Qed.

Lemma tame_update_branch x repo_url branch :
  tame (update_branch host conf x repo_url branch).
Proof.
  unfold update_branch, publish. repeat tame_step.
  - apply tame_pin.
  - apply tame_build.
Qed.

Lemma tame_update_extension x versions : tame (update_extension host conf x versions).
Proof.
  unfold update_extension, sync_branches, prepare, ensure_clone, branches_for,
    move_tarballs, finish_update, maybe_gc.
  repeat tame_step; try apply tame_supported_versions; try apply tame_update_branch.
  all: intros w e w' H; destruct (randint host (ext w)); inversion H.
Qed.

End Tame.

(** ** C4: one repository does not stop the batch (lines 267-275) *)

Section Batch.
Context {E : Type} (host : Host E) (conf : Conf).
Implicit Types w : World E.

Lemma guarded_update_Ok versions repo w w1 :
  update_extension host conf repo versions w = (Ok tt, w1) →
  guarded_update host conf versions repo w = (Ok tt, w1).
Proof. intros H. unfold guarded_update, try_except. by rewrite H. Qed.

Lemma guarded_update_Exception versions repo w e w1 :
  update_extension host conf repo versions w = (Raise e, w1) →
  is_Exception e = true →
  guarded_update host conf versions repo w
  = (Ok tt, logged ERROR ("Updating " +:+ repo +:+ " failed, skipping")
              (logged ERROR (format_exc e) w1)).
Proof.
  intros H He. unfold guarded_update, try_except. rewrite H, He.
  rewrite orb_true_r. by destruct e.
Qed.

Lemma guarded_update_interrupt versions repo w w1 :
  update_extension host conf repo versions w = (Raise KeyboardInterrupt, w1) →
  guarded_update host conf versions repo w
  = (Raise (SystemExit (Some 1)), logged ERROR (format_exc KeyboardInterrupt) w1).
Proof. intros H. unfold guarded_update, try_except. by rewrite H. Qed.

(** The loop over the repositories goes as [batch] says. *)
Lemma guarded_loop_is_batch versions repos w r w' :
  for_each repos (guarded_update host conf versions) w = (r, w') →
  batch host conf versions repos w r w'.
Proof.
  revert w. induction repos as [|repo rest IH]; intros w H.
  - inversion H; subst. constructor.
  - rewrite for_each_cons in H.
    destruct (update_extension host conf repo versions w) as [[[]|e] w1] eqn:Hup.
    + rewrite (bind_Ok _ _ _ _ _ (guarded_update_Ok _ _ _ _ Hup)) in H.
      eapply batch_updated; eauto.
    + pose proof (tame_update_extension host conf repo versions _ _ _ Hup) as Ht.
      destruct (is_KeyboardInterrupt e) eqn:Hki.
      * destruct e; try done.
        rewrite (bind_Raise _ _ _ _ _ (guarded_update_interrupt _ _ _ _ Hup)) in H.
        inversion H; subst. by apply batch_interrupted.
      * simpl in Ht.
        rewrite (bind_Ok _ _ _ _ _ (guarded_update_Exception _ _ _ _ _ Hup Ht)) in H.
        eapply batch_failed; eauto.
Qed.

(** The loop ends early only by [SystemExit(1)]. *)
Lemma batch_raises_only_exit versions repos w e w' :
  batch host conf versions repos w (Raise e) w' → e = SystemExit (Some 1).
Proof.
  intros H. remember (Raise e) as r eqn:Hr.
  induction H; try done; auto. by inversion Hr.
Qed.

(** C4 (as amended).  However [run] ends, it has gone as follows.  Either
    [init] or the listing of the repositories raised, and no update was
    started.  Or the loop over the list went as [batch] says, from the
    world after the two lines logged before it: an exception raised by the
    update of one repository is logged and the update of the next is
    started, from the world the failed update left; only the operator's
    interrupt ends the loop early, with [sys.exit(1)]; and a loop that
    was not interrupted is followed by the last line of the log and the
    return of [run]. *)
Theorem repository_isolation repos versions w r w' :
  run host conf repos versions w = (r, w') →
  (∃ e, r = Raise e ∧
        (init host conf w = (Raise e, w') ∨
         ∃ w0, init host conf w = (Ok tt, w0) ∧
               repos_for host conf repos w0 = (Raise e, w'))) ∨
  ∃ w0 l w1 r2 w2,
    init host conf w = (Ok tt, w0) ∧
    repos_for host conf repos w0 = (Ok l, w1) ∧
    batch host conf versions l
      (logged INFO ("Starting update of all " +:+ REPO_TYPE conf +:+ "...")
         (logged INFO ("Processing " +:+ pretty (length l) +:+ " " +:+ REPO_TYPE conf)
            w1))
      r2 w2 ∧
    match r2 with
    | Ok _ =>
        r = Ok tt ∧
        w' = logged INFO ("Finished update of all " +:+ REPO_TYPE conf +:+ "!") w2
    | Raise e => e = SystemExit (Some 1) ∧ r = Raise e ∧ w' = w2
    end.
Proof.
  intros H. unfold run in H.
  apply bind_inv in H as [([] & w0 & Hinit & H)|(e & Hinit & ->)].
  2:{ left. exists e. split; [done|]. by left. }
  unfold process in H.
  apply bind_inv in H as [(l & w1 & Hl & H)|(e & Hl & ->)].
  2:{ left. exists e. split; [done|]. right. by exists w0. }
  right. exists w0, l, w1.
  unfold bind at 1 2, logging at 1 2, modify at 1 2 in H.
  fold (logged INFO ("Processing " +:+ pretty (length l) +:+ " " +:+ REPO_TYPE conf) w1)
    in H.
  set (wa := logged INFO _ w1) in *.
  fold (logged INFO ("Starting update of all " +:+ REPO_TYPE conf +:+ "...") wa) in H.
  set (wb := logged INFO _ wa) in *.
  destruct (for_each l (guarded_update host conf versions) wb) as [r2 w2] eqn:Hloop.
  exists r2, w2. split; [done|]. split; [done|].
  split; [by apply guarded_loop_is_batch|].
  unfold bind in H. rewrite Hloop in H.
  destruct r2 as [[]|e].
  - unfold logging, modify in H. by inversion H.
  - inversion H; subst. split; [|done].
    eapply batch_raises_only_exit. by apply guarded_loop_is_batch.
Qed.

End Batch.

(** ** C3: failures while pinning (lines 154-179) *)

Section Pinning.
Context {E : Type} (host : Host E) (conf : Conf).
Implicit Types w : World E.

Lemma checkout_branch_skips branch w w' :
  guarded_checkout host conf branch w = (Raise CalledProcessError, w') →
  checkout_branch host conf branch w
  = (Ok false, logged WARNING ("could not checkout origin/" +:+ branch) w').
Proof.
  intros H. unfold checkout_branch, try_except.
  by rewrite (bind_Raise _ _ _ _ _ H).
Qed.

Lemma checkout_branch_raises branch w e w' :
  guarded_checkout host conf branch w = (Raise e, w') →
  is_CalledProcessError e = false →
  checkout_branch host conf branch w = (Raise e, w').
Proof.
  intros H He. unfold checkout_branch, try_except.
  by rewrite (bind_Raise _ _ _ _ _ H), He.
Qed.

Lemma checkout_branch_Ok branch w w' :
  guarded_checkout host conf branch w = (Ok tt, w') →
  checkout_branch host conf branch w = (Ok true, w').
Proof.
  intros H. unfold checkout_branch, try_except.
  by rewrite (bind_Ok _ _ _ _ _ H).
Qed.

(** An exception that leaves the iteration of one branch leaves
    [update_extension]: no later branch is tried, nothing is moved. *)
Lemma update_branch_raise_ends_update x versions repo_url b bs w0 w e w' :
  prepare host conf x versions w0 = (Ok (repo_url, b :: bs), w) →
  update_branch host conf x repo_url b w = (Raise e, w') →
  update_extension host conf x versions w0 = (Raise e, w').
Proof.
  intros Hprep Hb. unfold update_extension, sync_branches.
  rewrite bind_assoc, (bind_Ok _ _ _ _ _ Hprep). simpl.
  rewrite bind_assoc. by rewrite (bind_Raise _ _ _ _ _ Hb).
Qed.

Lemma pin_raise_ends_update x versions repo_url b bs w0 w e w' :
  prepare host conf x versions w0 = (Ok (repo_url, b :: bs), w) →
  pin host conf x repo_url b w = (Raise e, w') →
  update_extension host conf x versions w0 = (Raise e, w').
Proof.
  intros Hprep Hpin. eapply update_branch_raise_ends_update; [done|].
  unfold update_branch. by rewrite (bind_Raise _ _ _ _ _ Hpin).
Qed.

(** C3 (as amended).  With the repository prepared and [b] the branch at
    hand, name the outcomes of the three stages of the pinning: entering the
    mirror and refreshing the remote (set-url, fetch), the guarded commands
    (reset to origin/master, clean -ffdx, checkout of origin/b), and the
    settling (clean -ffd, submodule sync and update, rev-parse).  A
    [CalledProcessError] from the guarded commands gives up the branch only:
    a warning is logged and the update goes on with the remaining branches.
    Any other exception of the guarded commands, and any exception of the
    other two stages, leaves [update_extension] at once. *)
Theorem pinning_failures x versions repo_url b bs w0 w ra w1 rg w2 rs w3 :
  prepare host conf x versions w0 = (Ok (repo_url, b :: bs), w) →
  approach host conf x repo_url b w = (ra, w1) →
  guarded_checkout host conf b w1 = (rg, w2) →
  settle_checkout host conf w2 = (rs, w3) →
  match ra, rg, rs with
  | Raise e, _, _ =>
      update_extension host conf x versions w0 = (Raise e, w1)
  | Ok _, Raise CalledProcessError, _ =>
      let w2' := logged WARNING ("could not checkout origin/" +:+ b) w2 in
      update_branch host conf x repo_url b w = (Ok tt, w2') ∧
      update_extension host conf x versions w0
      = rest_of_update host conf x repo_url bs w2'
  | Ok _, Raise e, _ =>
      update_extension host conf x versions w0 = (Raise e, w2)
  | Ok _, Ok _, Raise e =>
      update_extension host conf x versions w0 = (Raise e, w3)
  | Ok _, Ok _, Ok rev =>
      pin host conf x repo_url b w = (Ok (Some rev), w3)
  end.
Proof.
  intros Hprep Ha Hg Hs.
  destruct ra as [[]|e].
  2:{ eapply pin_raise_ends_update; [done|].
      unfold pin. by rewrite (bind_Raise _ _ _ _ _ Ha). }
  destruct rg as [[]|e].
  - pose proof (checkout_branch_Ok _ _ _ Hg) as Hc.
    destruct rs as [rev|e].
    + unfold pin. rewrite (bind_Ok _ _ _ _ _ Ha), (bind_Ok _ _ _ _ _ Hc). simpl.
      by rewrite (bind_Ok _ _ _ _ _ Hs).
    + eapply pin_raise_ends_update; [done|].
      unfold pin. rewrite (bind_Ok _ _ _ _ _ Ha), (bind_Ok _ _ _ _ _ Hc). simpl.
      by rewrite (bind_Raise _ _ _ _ _ Hs).
  - assert (∀ e', e = e' → is_CalledProcessError e' = false →
              update_extension host conf x versions w0 = (Raise e', w2)) as Hother.
    { intros e' <- He. eapply pin_raise_ends_update; [done|].
      unfold pin. rewrite (bind_Ok _ _ _ _ _ Ha).
      by rewrite (bind_Raise _ _ _ _ _ (checkout_branch_raises _ _ _ _ Hg He)). }
    destruct e; try (by apply Hother).
    pose proof (checkout_branch_skips _ _ _ Hg) as Hc.
    assert (update_branch host conf x repo_url b w
            = (Ok tt, logged WARNING ("could not checkout origin/" +:+ b) w2)) as Hb.
    { unfold update_branch, pin.
      rewrite bind_assoc, (bind_Ok _ _ _ _ _ Ha).
      rewrite bind_assoc, (bind_Ok _ _ _ _ _ Hc). reflexivity. }
    split; [done|].
    unfold update_extension, sync_branches, rest_of_update.
    rewrite bind_assoc, (bind_Ok _ _ _ _ _ Hprep). simpl.
    rewrite bind_assoc. by rewrite (bind_Ok _ _ _ _ _ Hb).
Qed.

End Pinning.

(** ** Frames: what the steps leave alone in the two directories *)

Section Frames.
Context {E : Type} (host : Host E) (conf : Conf).
Implicit Types (w : World E) (P : World E → Prop).

Lemma elem_of_glob_dir pat (d : gmap string node) n :
  n ∈ glob_dir pat d ↔ is_Some (d !! n) ∧ Py.glob_match pat n = true.
Proof.
  unfold glob_dir. rewrite list_elem_of_filter, list_elem_of_fmap. split.
  - intros [Hm ([n' v] & -> & Hin)]. apply elem_of_map_to_list in Hin.
    split; [by exists v | done].
  - intros [[v Hv] Hm]. split; [done|]. exists (n, v). split; [done|].
    by apply elem_of_map_to_list.
Qed.




Lemma dist_put_tree w m t : dist (put_tree m t w) = dist w.
Proof. unfold put_tree. by destruct (src w). Qed.

Lemma dist_at_put_tree n w m t : dist_at n (put_tree m t w) = dist_at n w.
Proof. unfold dist_at. by rewrite dist_put_tree. Qed.

Local Ltac split_shell H :=
  unfold shell_exec in H; simpl in H;
  repeat (match goal with
          | H : context [match ?x with _ => _ end] |- _ => destruct x eqn:?
          | H : of_outcome ?o _ = _ |- _ => destruct o; simpl in H
          end; simplify_eq; simpl in * );
  simplify_eq.

(** No command touches an entry of DIST_PATH. *)
Lemma keeps_dist_shell n v k : keeps (dist_is n v) (shell_exec host conf k).
Proof.
  intros w r w' H HP. unfold dist_is in *. rewrite <- HP. clear HP.
  destruct k as [[]| | | | |]; split_shell H;
    rewrite ?dist_at_put_tree; try done.
  all: unfold dist_at; simpl; by repeat case_match.
Qed.


Lemma keeps_dist_logging n v l msg : keeps (dist_is n v) (logging (E:=E) l msg).
Proof. by apply keeps_modify. Qed.


Lemma keeps_dist_chdir_ext n v : keeps (dist_is n v) (chdir_ext (E:=E)).
Proof. intros w r w' H HP. unfold chdir_ext in H. by repeat case_match; simplify_eq. Qed.


Lemma keeps_dist_chdir_mirror n v x : keeps (dist_is n v) (chdir_mirror (E:=E) x).
Proof. intros w r w' H HP. unfold chdir_mirror in H. by repeat case_match; simplify_eq. Qed.


Lemma keeps_git_url P x : keeps P (git_url (E:=E) conf x).
Proof. intros w r w' H HP. by apply git_url_inv in H as ->. Qed.

Lemma keeps_dist_supported_versions n v : keeps (dist_is n v) (supported_versions host).
Proof.
  intros w r w' H HP. apply supported_versions_frame in H as (_ & _ & Hd & _).
  unfold dist_is, dist_at in *. by rewrite Hd.
Qed.


Lemma keeps_dist_shutil_move n v m :
  m ≠ n → keeps (dist_is n v) (shutil_move host conf m).
Proof.
  intros Hne w r w' H HP. unfold shutil_move, move_here in H.
  unfold dist_is, dist_at in *.
  repeat case_match; simplify_eq; simpl in *; simplify_eq; try done;
    by rewrite lookup_insert_ne.
Qed.


Lemma keeps_dist_maybe_gc n v x : keeps (dist_is n v) (maybe_gc host conf x).
Proof.
  unfold maybe_gc. apply keeps_bind.
  - intros w r w' H HP. destruct (randint host (ext w)). by inversion H; subst.
  - intros z. case_bool_decide; [|apply keeps_ret].
    apply keeps_bind; [by apply keeps_dist_shell | intros; apply keeps_ret].
Qed.



End Frames.

(** ** C10: what the move takes along (lines 228-232) *)

Section Moving.
Context {E : Type} (host : Host E) (conf : Conf).
Implicit Types w : World E.




End Moving.

(** ** A published tarball and the next update (lines 181-184, 228-232) *)

Section Idempotence.
Context {E : Type} (host : Host E) (conf : Conf).
Implicit Types w : World E.














(** *** The first update publishes *)

Lemma fnmatch_star_cons rest c s :
  Py.fnmatch_star rest (String c s) = rest (String c s) || Py.fnmatch_star rest s.
Proof. reflexivity. Qed.

Lemma fnmatch_star_suffix p :
  Py.fnmatch "*.tar.gz" (p +:+ ".tar.gz") = true.
Proof.
  change (Py.fnmatch "*.tar.gz") with (Py.fnmatch_star (Py.fnmatch ".tar.gz")).
  induction p as [|c p IH].
  - reflexivity.
  - rewrite append_cons, fnmatch_star_cons, IH. apply orb_true_r.
Qed.






End Idempotence.

(** ** C5: the short revision (lines 178-180) *)

Section Revision.
Context {E : Type} (host : Host E) (conf : Conf).
Implicit Types w : World E.

(** The revision is what git printed, with the white space around it
    removed: its length is git's choice. *)
Lemma settle_checkout_rev w rev w' :
  settle_checkout host conf w = (Ok rev, w') →
  ∃ t e out t' e',
    in_tree host ["git"; "rev-parse"; "--short=7"; "HEAD"]%string t e = (Done out, t', e') ∧
    rev = Py.strip out.
Proof.
  unfold settle_checkout. intros H.
  apply bind_inv in H as [(? & ? & _ & H)|(? & _ & ?)]; [|done].
  apply bind_inv in H as [(? & ? & _ & H)|(? & _ & ?)]; [|done].
  apply bind_inv in H as [(? & ? & _ & H)|(? & _ & ?)]; [|done].
  apply bind_inv in H as [(out & w4 & Hrev & H)|(? & _ & ?)]; [|done].
  inversion H; subst.
  apply shell_in_tree_inv in Hrev as [(_ & ? & _)|(m & t & _ & Hrev)]; [done|].
  simpl in Hrev.
  destruct (in_tree host _ t (ext _)) as [[o t'] e'] eqn:Hin.
  destruct Hrev as [_ Hr]. destruct o as [out'|f]; [|done].
  inversion Hr; subst. eauto 10.
Qed.

End Revision.

(** C5.  On a mirror where seven digits are ambiguous, [git rev-parse
    --short=7 HEAD] prints eight, and the revision the pinning returns -- the
    output stripped, never cut -- has eight characters, not seven. *)
Theorem revision_not_cut :
  in_tree Sample.h_long ["git"; "rev-parse"; "--short=7"; "HEAD"]%string
    Sample.fresh_clone 1000
  = (Done ("1a2b3c4d" +:+ LF), Sample.fresh_clone, 1000) ∧
  fst (pin Sample.h_long (Sample.conf false) "Foo" Sample.url "REL1_39" Sample.w_fresh)
  = Ok (Some "1a2b3c4d"%string) ∧
  String.length "1a2b3c4d" = 8%nat.
Proof. repeat split; vm_compute; reflexivity. Qed.

(** ** C1: what the pruning deletes (lines 220-227) *)

Section Pruning.
Context {E : Type} (host : Host E) (conf : Conf).
Implicit Types w : World E.

Lemma fnmatch_literal a pat name :
  a ≠ "*"%char → a ≠ "?"%char →
  Py.fnmatch (String a pat) (String a name) = Py.fnmatch pat name.
Proof.
  intros Hstar Hq.
  assert (Py.fnmatch (String a pat) (String a name)
          = Ascii.eqb a a && Py.fnmatch pat name) as ->.
  { destruct a as [[] [] [] [] [] [] [] []]; try reflexivity; by exfalso. }
  by rewrite Ascii.eqb_refl.
Qed.

Lemma fnmatch_plain_prefix p pat name :
  has_char "*" p = false → has_char "?" p = false →
  Py.fnmatch (p +:+ pat) (p +:+ name) = Py.fnmatch pat name.
Proof.
  induction p as [|a p IH]; intros Hs Hq; [done|].
  simpl in Hs, Hq. apply orb_false_iff in Hs as [Has Hs], Hq as [Haq Hq].
  rewrite !append_cons, fnmatch_literal, IH; try done.
  - intros ->. by rewrite Ascii.eqb_refl in Has.
  - intros ->. by rewrite Ascii.eqb_refl in Haq.
Qed.

(** The pattern of the pruning never matches the name the tarball of the
    same key is published under. *)
Lemma prune_pattern_misses x b :
  wildcard_free x = true → wildcard_free b = true →
  Py.glob_match (x +:+ "-" +:+ b +:+ "-*.tar.gz") (tarball_fname x b) = false.
Proof.
  unfold wildcard_free. intros Hx Hb.
  repeat (apply andb_true_iff in Hx as [Hx ?]).
  repeat (apply andb_true_iff in Hb as [Hb ?]).
  repeat match goal with H : negb _ = true |- _ => apply negb_true_iff in H end.
  unfold Py.glob_match. apply andb_false_iff. right.
  unfold tarball_fname.
  replace (x +:+ "-" +:+ b +:+ "-*.tar.gz") with ((x +:+ "-" +:+ b) +:+ "-*.tar.gz")
    by (by rewrite !append_assoc).
  replace (x +:+ "-" +:+ b +:+ ".tar.gz") with ((x +:+ "-" +:+ b) +:+ ".tar.gz")
    by (by rewrite !append_assoc).
  rewrite fnmatch_plain_prefix; [reflexivity| |];
    rewrite !has_char_append; simpl; by rewrite ?Hx, ?Hb, ?H0, ?H2.
Qed.

Lemma keeps_dist_unlink n v m :
  m ≠ n → keeps (dist_is n v) (unlink_dist host conf m).
Proof.
  intros Hne w r w' H HP. unfold unlink_dist, unlink_here in H.
  unfold dist_is, dist_at in *.
  repeat case_match; simplify_eq; simpl in *; simplify_eq; try done.
  by rewrite lookup_delete_ne.
Qed.

(** Out of reach of DIST_PATH, removing a file leaves DIST_PATH as it is
    and the script where it is. *)
Lemma keeps_dist_unlink_stray n v m :
  keeps (fun w => dist_is n v w ∧ dist_in_reach conf w = false)
    (unlink_dist host conf m).
Proof.
  intros w r w' H [HP Hr]. unfold unlink_dist in H. rewrite Hr in H.
  destruct (stray_unlink host (cwd w) m (ext w)) as [gone e'].
  by injection H as _ <-.
Qed.

(** The pruning leaves alone what its pattern does not match. *)
Lemma keeps_dist_prune_missed n v x b :
  Py.glob_match (x +:+ "-" +:+ b +:+ "-*.tar.gz") n = false →
  keeps (dist_is n v) (prune host conf x b).
Proof.
  intros Hmiss w r w' H HP.
  unfold prune, bind, gets, logging, modify in H. simpl in H.
  destruct (dist_in_reach conf w) eqn:Hr.
  - rewrite (glob_dist_reach host conf _ w Hr) in H.
    eapply (keeps_for_each_in (dist_is n v)); [|exact H|exact HP].
    intros m Hm. apply keeps_dist_unlink. intros ->.
    unfold glob_here in Hm. destruct (dist w) as [dd|]; [|by inversion Hm].
    apply elem_of_glob_dir in Hm as [_ Hm]. congruence.
  - eapply (keeps_for_each (fun w => dist_is n v w ∧ dist_in_reach conf w = false));
      [|exact H|by split].
    intros m. apply keeps_dist_unlink_stray.
Qed.

(** So the pruning for a key leaves the published tarball of the key where
    it is. *)
Lemma prune_keeps_tarball x b w r w' :
  wildcard_free x = true → wildcard_free b = true →
  prune host conf x b w = (r, w') →
  dist_at (tarball_fname x b) w' = dist_at (tarball_fname x b) w.
Proof.
  intros Hx Hb H.
  by apply (keeps_dist_prune_missed (tarball_fname x b) _ x b
              (prune_pattern_misses x b Hx Hb) w r w' H).
Qed.

End Pruning.

(** C1.  With the force flag set and the tarball of the key (Foo, REL1_39)
    published, the pattern of the pruning does not match the name of that
    tarball; the pruning deletes nothing; and when the new archive has been
    built, the old one is still what DIST_PATH holds under the name. *)
Theorem prune_leaves_published_tarball :
  let c := Sample.conf true in
  let pinned := snd (pin Sample.h c "Foo" Sample.url "REL1_39" Sample.w_published) in
  tarball_fname "Foo" "REL1_39" = "Foo-REL1_39.tar.gz"%string ∧
  Py.glob_match "Foo-REL1_39-*.tar.gz" "Foo-REL1_39.tar.gz" = false ∧
  prune Sample.h c "Foo" "REL1_39" Sample.w_published
  = (Ok tt, logged DEBUG "Deleting old tarballs..." Sample.w_published) ∧
  fst (build Sample.h c "Foo" "REL1_39" "1a2b3c4" pinned) = Ok tt ∧
  dist_at "Foo-REL1_39.tar.gz" (snd (build Sample.h c "Foo" "REL1_39" "1a2b3c4" pinned))
  = Some Sample.old_tarball ∧
  src_at "Foo-REL1_39.tar.gz" (snd (build Sample.h c "Foo" "REL1_39" "1a2b3c4" pinned))
  = Some (NFile (File "archive of Foo" 1000)).
Proof. repeat split; vm_compute; reflexivity. Qed.

(** The pattern reaches over to another key: pruning for the branch [main]
    deletes the tarball of the branch [main-next]. *)
Example prune_hits_other_key :
  let w := Sample.world LockAbsent Sample.mirrors
             {[ "Foo-main-next.tar.gz"%string := Sample.old_tarball ]} in
  tarball_fname "Foo" "main-next" = "Foo-main-next.tar.gz"%string ∧
  dist_at "Foo-main-next.tar.gz"
    (snd (prune Sample.h (Sample.conf false) "Foo" "main" w)) = None.
Proof. repeat split; vm_compute; reflexivity. Qed.

(** ** The claims on the sample host *)






Lemma gitinfo_branch_name_example :
  ∃ m t raw t' g,
    cwd_tree Sample.w_on_main = Some (m, t) ∧ t_head t = Some raw ∧
    cwd_tree (snd (write_gitinfo Sample.h (Sample.conf false) "Foo" Sample.w_on_main))
    = Some (m, t') ∧ t_gitinfo t' = Some g ∧
    gi_head g = (if Py.startswith "ref:" raw then Py.slice_from 5 raw else raw) ∧
    (Py.startswith "refs/heads" (gi_head g) = true →
       has_char "/" (gi_branch g) = false ∧
       ∃ p, gi_head g = p +:+ "/" +:+ gi_branch g) ∧
    (Py.startswith "refs/heads" (gi_head g) = false → gi_branch g = gi_head g).
Proof.
  apply (gitinfo_branch_name Sample.h (Sample.conf false) "Foo" Sample.w_on_main).
  vm_compute. reflexivity.
Defined.

(** C7, as first stated, fails: the tarball of (Foo, REL1_39) is published
    and the force flag is unset; the update skips the branch, and the
    checkout is left without any [gitinfo.json]. *)
Lemma skip_leaves_no_provenance :
  let r := update_extension Sample.h (Sample.conf false) "Foo"
             (Some ["REL1_39"%string]) Sample.w_published in
  force (Sample.conf false) = false ∧
  exists_in_dist Sample.h (Sample.conf false) (tarball_fname "Foo" "REL1_39")
    Sample.w_published = true ∧
  fst r = Ok tt ∧
  (DEBUG, "No updates to branch, tarball already exists."%string) ∈ log (snd r) ∧
  ∃ t, src_at "Foo" (snd r) = Some (NDir t) ∧ t_gitinfo t = None ∧ t_version t = None.
Proof.
  repeat split; try (vm_compute; reflexivity).
  - vm_compute. repeat (first [left | right]).
  - eexists. repeat split; vm_compute; reflexivity.
Qed.

Lemma skip_ends_iteration_witness :
  let c := Sample.conf false in
  let w := snd (pin Sample.h c "Foo" Sample.url "REL1_39" Sample.w_published) in
  let w' := logged DEBUG "No updates to branch, tarball already exists." w in
  pin Sample.h c "Foo" Sample.url "REL1_39" Sample.w_published
  = (Ok (Some "1a2b3c4"%string), w) ∧
  publish Sample.h c "Foo" "REL1_39" "1a2b3c4" w = (Ok tt, w') ∧
  update_branch Sample.h c "Foo" Sample.url "REL1_39" Sample.w_published = (Ok tt, w') ∧
  cwd_tree w' = cwd_tree w.
Proof.
  intros c w w'.
  assert (pin Sample.h c "Foo" Sample.url "REL1_39" Sample.w_published
          = (Ok (Some "1a2b3c4"%string), w)) as Hpin by (vm_compute; reflexivity).
  split; [exact Hpin|].
  apply (skip_ends_iteration Sample.h c "Foo" Sample.url "REL1_39" "1a2b3c4"
           Sample.w_published w); [reflexivity | exact Hpin | vm_compute; reflexivity].
Defined.

(** C3, as first stated, fails: the remote has no [master] branch, so it
    is [git reset --hard origin/master] that exits non-zero, while both
    requested branches exist; the failure does not leave [update_extension]:
    each branch is given up with a warning and the update returns. *)
Lemma reset_failure_skips_branch :
  let w1 := set_cwd (CwdMirror "Foo") Sample.w_fresh in
  let r := update_extension Sample.h_no_master (Sample.conf false) "Foo"
             (Some ["REL1_39"; "REL1_40"]%string) Sample.w_fresh in
  fst (shell_exec Sample.h_no_master (Sample.conf false)
         (InTree ["git"; "reset"; "--hard"; "origin/master"]%string) w1)
  = Raise CalledProcessError ∧
  fst (shell_exec Sample.h_no_master (Sample.conf false)
         (InTree ["git"; "checkout"; "origin/REL1_39"]%string) w1)
  = Ok ""%string ∧
  fst r = Ok tt ∧
  filter (fun e => e.1 = WARNING) (log (snd r))
  = [(WARNING, "could not checkout origin/REL1_39"%string);
     (WARNING, "could not checkout origin/REL1_40"%string)].
Proof. repeat split; vm_compute; reflexivity. Qed.

Lemma pinning_failures_witness :
  let c := Sample.conf false in
  let vs := Some ["REL1_39"; "REL1_40"]%string in
  let w := snd (prepare Sample.h_no_master c "Foo" vs Sample.w_fresh) in
  let w1 := snd (approach Sample.h_no_master c "Foo" Sample.url "REL1_39" w) in
  let w2 := snd (guarded_checkout Sample.h_no_master c "REL1_39" w1) in
  let w2' := logged WARNING "could not checkout origin/REL1_39" w2 in
  guarded_checkout Sample.h_no_master c "REL1_39" w1 = (Raise CalledProcessError, w2) ∧
  update_branch Sample.h_no_master c "Foo" Sample.url "REL1_39" w = (Ok tt, w2') ∧
  update_extension Sample.h_no_master c "Foo" vs Sample.w_fresh
  = rest_of_update Sample.h_no_master c "Foo" Sample.url ["REL1_40"%string] w2'.
Proof.
  intros c vs w w1 w2 w2'.
  assert (guarded_checkout Sample.h_no_master c "REL1_39" w1
          = (Raise CalledProcessError, w2)) as Hg by (vm_compute; reflexivity).
  split; [exact Hg|].
  apply (pinning_failures Sample.h_no_master c "Foo" vs Sample.url "REL1_39"
           ["REL1_40"%string] Sample.w_fresh w (Ok tt) w1 (Raise CalledProcessError) w2
           (Ok "1a2b3c4"%string) (snd (settle_checkout Sample.h_no_master c w2)));
    [vm_compute; reflexivity | vm_compute; reflexivity | exact Hg
    | vm_compute; reflexivity].
Defined.

(** C4, as first stated, fails: with the force flag, the tarball of Foo
    is built and cannot be moved to DIST_PATH; the update of Foo fails and
    leaves the tarball in EXT_PATH, where the move of the next update finds
    it: the update of Bar fails as well, while from the same world and
    without Foo before it, it returns and Bar is published. *)
Lemma stranded_tarball_fails_next :
  let c := Sample.conf true in
  let vs := Some ["REL1_39"%string] in
  let both := run Sample.h c (Some ["Foo"; "Bar"]%string) vs Cases.w_blocked in
  let alone := run Sample.h c (Some ["Bar"%string]) vs Cases.w_blocked in
  fst both = Ok tt ∧
  filter (fun e => e.1 = ERROR) (log (snd both))
  = [(ERROR, format_exc OSError);
     (ERROR, "Updating Foo failed, skipping"%string);
     (ERROR, format_exc OSError);
     (ERROR, "Updating Bar failed, skipping"%string)] ∧
  is_Some (src_at "Foo-REL1_39.tar.gz" (snd both)) ∧
  fst alone = Ok tt ∧
  filter (fun e => e.1 = ERROR) (log (snd alone)) = [] ∧
  dist_at "Bar-REL1_39.tar.gz" (snd alone) = Some (NFile (File "archive of Bar" 1000)).
Proof.
  intros c vs both alone.
  split; [vm_compute; reflexivity|]. split; [vm_compute; reflexivity|].
  split; [eexists; vm_compute; reflexivity|].
  split; [vm_compute; reflexivity|]. split; vm_compute; reflexivity.
Qed.

(** The update of Foo fails ([os.chdir] into a regular file); Bar is cloned
    and published all the same. *)
Lemma repository_isolation_witness :
  let c := Sample.conf false in
  let repos := ["Foo"; "Bar"]%string in
  let vs := Some ["REL1_39"%string] in
  let out := run Sample.h c (Some repos) vs Sample.w_broken in
  fst out = Ok tt ∧
  filter (fun e => e.1 = ERROR) (log (snd out))
  = [(ERROR, format_exc OSError); (ERROR, "Updating Foo failed, skipping"%string)] ∧
  dist_at "Bar-REL1_39.tar.gz" (snd out) = Some (NFile (File "archive of Bar" 1000)) ∧
  ((∃ e, fst out = Raise e ∧
         (init Sample.h c Sample.w_broken = (Raise e, snd out) ∨
          ∃ w0, init Sample.h c Sample.w_broken = (Ok tt, w0) ∧
                repos_for Sample.h c (Some repos) w0 = (Raise e, snd out))) ∨
   ∃ w0 l w1 r2 w2,
     init Sample.h c Sample.w_broken = (Ok tt, w0) ∧
     repos_for Sample.h c (Some repos) w0 = (Ok l, w1) ∧
     batch Sample.h c vs l
       (logged INFO ("Starting update of all " +:+ REPO_TYPE c +:+ "...")
          (logged INFO ("Processing " +:+ pretty (length l) +:+ " " +:+ REPO_TYPE c)
             w1))
       r2 w2 ∧
     match r2 with
     | Ok _ =>
         fst out = Ok tt ∧
         snd out = logged INFO ("Finished update of all " +:+ REPO_TYPE c +:+ "!") w2
     | Raise e => e = SystemExit (Some 1) ∧ fst out = Raise e ∧ snd out = w2
     end).
Proof.
  intros c repos vs out.
  split; [vm_compute; reflexivity|]. split; [vm_compute; reflexivity|].
  split; [vm_compute; reflexivity|].
  apply (repository_isolation Sample.h c (Some repos) vs Sample.w_broken).
  vm_compute. reflexivity.
Defined.



(** * Further properties of the script *)

(** ** The lazy lists (lines 51-103) *)

Section Caches.
Context {E : Type} (host : Host E) (conf : Conf).
Implicit Types w : World E.

(** X1.  [repo_list] asks the API once: after a call that returned, the list
    is kept, and the next call returns it without a change to anything,
    the outside world included.  A call that failed has kept nothing. *)
Theorem repo_list_is_cached w r w' :
  repo_list host conf w = (r, w') →
  match r with
  | Ok l => _repo_list w' = Some l ∧ repo_list host conf w' = (Ok l, w')
  | Raise _ => _repo_list w' = _repo_list w
  end.
Proof.
  unfold repo_list, fetch_all_repos, bind, gets, logging, modify, ret.
  destruct (_repo_list w) as [l0|] eqn:Hc.
  - intros [= <- <-]. by rewrite Hc.
  - simpl. destruct (api_repos host (ext w)) as [[f|l] e']; intros [= <- <-]; simpl.
    + done.
    + done.
Qed.

(** X2.  [supported_versions] asks the API at most once.  After a call
    that returned, the object with the list is kept, and the next call
    returns the same list without a change to anything.  A call that
    failed has either kept nothing new, or it has kept an object that
    lacks one of the two entries read at lines 101-102 -- and then no later
    call asks the API again: without ['snapshots'] every later call fails
    with [KeyError], and without ['list'] only, the next call returns the
    list that the failed call fetched. *)
Theorem supported_versions_is_cached w r w' :
  supported_versions host w = (r, w') →
  match r with
  | Ok l => snapshots_known l w' ∧ supported_versions host w' = (Ok l, w')
  | Raise e =>
      _extension_config w' = _extension_config w ∨
      ∃ c, _extension_config w = None ∧ _extension_config w' = Some c ∧
           e = OtherException "KeyError" ∧
           match snapshots c with
           | Some l => has_list c = false ∧ supported_versions host w' = (Ok l, w')
           | None =>
               supported_versions host w' = (Raise (OtherException "KeyError"), w')
           end
  end.
Proof.
  destruct (_extension_config w) as [c0|] eqn:Hc.
  - rewrite (supported_versions_kept host w c0 Hc).
    destruct (snapshots c0) as [l|] eqn:Hl; intros [= <- <-].
    + split; [by exists c0|]. by rewrite (supported_versions_kept host w c0 Hc), Hl.
    + by left.
  - rewrite (supported_versions_fetched host w Hc). simpl.
    destruct (api_config host (ext w)) as [[f|c] e'].
    + intros [= <- <-]. by left.
    + destruct (snapshots c) as [l|] eqn:Hl; [destruct (has_list c) eqn:Hh|];
        intros [= <- <-].
      * split; [by exists c|].
        erewrite supported_versions_kept; [|reflexivity]. by rewrite Hl.
      * right. exists c. rewrite Hl.
        erewrite supported_versions_kept; [|reflexivity]. by rewrite Hl.
      * right. exists c. rewrite Hl.
        erewrite supported_versions_kept; [|reflexivity]. by rewrite Hl.
Qed.

End Caches.

(** ** What the batch leaves alone: the lock file, the fetched branches *)

Section Static.
Context {E : Type} (host : Host E) (conf : Conf).
Implicit Types w : World E.

Lemma pid_file_put_tree w m t : pid_file (put_tree m t w) = pid_file w.
Proof. unfold put_tree. by destruct (src w). Qed.

Lemma config_put_tree w m t :
  _extension_config (put_tree m t w) = _extension_config w.
Proof. unfold put_tree. by destruct (src w). Qed.

(** A step that is one of the primitives, or a function on the world
    written in place. *)
Local Ltac field_leaf :=
  let H := fresh "H" in
  let HP := fresh "HP" in
  intros ? ? ? H HP; unfold lock_is, snapshots_known in *;
  unfold shell_exec, chdir_ext, chdir_mirror, unlink_dist, unlink_here,
    shutil_move, move_here, read_in_tree, write_in_tree, has_require, of_outcome,
    logging, modify, ret, raise in H;
  simpl in H;
  repeat (match goal with
          | H : context [match ?x with _ => _ end] |- _ => destruct x eqn:?
          | |- context [match ?x with _ => _ end] => destruct x eqn:?
          end; simplify_eq; simpl in * );
  simplify_eq; simpl; rewrite ?pid_file_put_tree, ?config_put_tree; done.

Lemma keeps_lock_supported_versions v : keeps (lock_is v) (supported_versions host).
Proof.
  intros w r w' H HP. unfold lock_is in *. rewrite <- HP.
  by apply supported_versions_frame in H as (Hp & _).
Qed.

Lemma keeps_snapshots_supported_versions l :
  keeps (snapshots_known l) (supported_versions host).
Proof.
  intros w r w' H (c & Hc & Hl).
  rewrite (supported_versions_kept host w c Hc) in H. injection H as _ <-.
  by exists c.
Qed.

Local Ltac field_steps :=
  repeat lazymatch goal with
  | |- ∀ _, _ => intro
  | |- keeps _ (bind _ _) => apply keeps_bind
  | |- keeps _ (try_except _ _ _) => apply keeps_try_except
  | |- keeps _ (for_each _ _) => apply keeps_for_each
  | |- keeps _ (ret _) => apply keeps_ret
  | |- keeps _ (raise _) => apply keeps_raise
  | |- keeps _ (gets _) => apply keeps_gets
  | |- keeps _ (git_url _ _) => apply keeps_git_url
  | |- keeps (lock_is _) (supported_versions _) =>
      apply keeps_lock_supported_versions
  | |- keeps (snapshots_known _) (supported_versions _) =>
      apply keeps_snapshots_supported_versions
  | |- keeps _ (shell_exec _ _ ?k) => destruct k; field_leaf
  | |- keeps _ (if ?b then _ else _) => destruct b
  | |- keeps _ (match ?x with _ => _ end) => destruct x
  | |- keeps _ _ => field_leaf
  end.

Local Ltac unfold_update :=
  unfold guarded_update, update_extension, sync_branches, prepare, ensure_clone,
    branches_for, update_branch, pin, approach, refresh_remote, checkout_branch,
    guarded_checkout, settle_checkout, publish, build, composer_install,
    write_gitinfo, write_version, prune, move_tarballs, finish_update, maybe_gc.


Lemma keeps_snapshots_guarded_update l versions repo :
  keeps (snapshots_known l) (guarded_update host conf versions repo).
Proof. unfold_update. field_steps. Qed.





(** X4.  Once the list of supported branches has been fetched, it is the list
    every later update goes through: the batch neither changes it nor asks
    the API for it again. *)
Theorem snapshots_stay_fixed l repos versions w r w' :
  snapshots_known l w →
  for_each repos (guarded_update host conf versions) w = (r, w') →
  snapshots_known l w' ∧ branches_for host None w' = (Ok l, w').
Proof.
  intros Hl H.
  assert (snapshots_known l w') as Hl'.
  { revert H Hl. apply keeps_for_each. intro. apply keeps_snapshots_guarded_update. }
  split; [done|]. destruct Hl' as (c & Hc & Hs).
  unfold branches_for. by rewrite (supported_versions_kept host w' c Hc), Hs.
Qed.

End Static.

(** ** Start-up (lines 105-131, 239-259) *)

Section Startup.
Context {E : Type} (host : Host E) (conf : Conf).
Implicit Types w : World E.

Lemma check_not_running_Ok w w' :
  check_not_running host w = (Ok tt, w') → w' = w.
Proof.
  unfold check_not_running, bind, gets, read_pid_file, int_of, check_pid, logging,
    modify, quit, raise, ret.
  intros H. repeat (case_match; simplify_eq); done.
Qed.

Lemma ensure_dirs_Ok w w' :
  ensure_dirs host conf w = (Ok tt, w') →
  src w' = Some (default ∅ (src w)) ∧ dist w' = Some (default ∅ (dist w)) ∧
  pid_file w' = pid_file w.
Proof.
  unfold ensure_dirs, bind, gets, ret, shell_exec. simpl. intros H.
  destruct (src w) as [sd|] eqn:Hs; destruct (dist w) as [dd|] eqn:Hd; simpl in H;
    repeat (match goal with
            | H : context [match ?x with _ => _ end] |- _ => destruct x eqn:?
            end; simplify_eq; simpl in *; rewrite ?Hs, ?Hd in *; simpl in * );
    simplify_eq; simpl; rewrite ?Hs, ?Hd; done.
Qed.

(** X5.  When [init] returns, both directories exist -- one that was there is
    as it was, one that was missing is new and empty -- and the lock file
    holds the pid of this process. *)
Theorem init_sets_the_stage w w' :
  init host conf w = (Ok tt, w') →
  src w' = Some (default ∅ (src w)) ∧
  dist w' = Some (default ∅ (dist w)) ∧
  pid_file w' = LockText (Py.str (getpid host)).
Proof.
  unfold init. intros H.
  apply bind_inv in H as [([] & w1 & Hc & H)|(e & _ & [=])].
  apply check_not_running_Ok in Hc as ->.
  apply bind_inv in H as [([] & w2 & Hp & H)|(e & _ & [=])].
  apply create_pid_file_inv in Hp as [_ ->].
  apply ensure_dirs_Ok in H as (Hs & Hd & Hl). by rewrite Hs, Hd, Hl.
Qed.

End Startup.

(** ** The lock, written and read back (lines 116-123, 253-259) *)














Section Singleton.
Context {E : Type}.
Implicit Types w : World E.



End Singleton.

(** ** Pieces of [update_extension] *)

Section Pieces.
Context {E : Type} (host : Host E) (conf : Conf).
Implicit Types w : World E.

(** *** The clone (lines 149-153) *)

(** X7.  A clone that returned has made the mirror, and asking again does
    nothing: no second clone, no change to the world. *)
Theorem ensure_clone_once x repo_url repo_url' w w' :
  ensure_clone host conf x repo_url w = (Ok tt, w') →
  exists_in_src x w' = true ∧
  ensure_clone host conf x repo_url' w' = (Ok tt, w').
Proof.
  intros H.
  assert (exists_in_src x w' = true) as Hex.
  { unfold ensure_clone, bind, gets, ret, chdir_ext, logging, modify, shell_exec in H.
    destruct (exists_in_src x w) eqn:Hthere; [by inversion H; subst|].
    simpl in H. repeat (case_match; simplify_eq; simpl in * ).
    unfold exists_in_src. simpl. apply bool_decide_eq_true.
    rewrite lookup_insert_eq. by eexists. }
  split; [done|]. unfold ensure_clone, bind, gets. by rewrite Hex.
Qed.

(** *** Composer (lines 185-194) *)


(** *** Pruning (lines 220-224) *)






End Pieces.

(** ** Patterns that end in [.tar.gz] *)

Lemma fnmatch_other a pat name :
  a ≠ "*"%char → a ≠ "?"%char →
  Py.fnmatch (String a pat) name
  = match name with
    | EmptyString => false
    | String b name' => Ascii.eqb a b && Py.fnmatch pat name'
    end.
Proof.
  intros Hstar Hq.
  destruct a as [[] [] [] [] [] [] [] []]; try reflexivity; by exfalso.
Qed.

Lemma fnmatch_star_inv rest name :
  Py.fnmatch_star rest name = true →
  ∃ pre suf, name = pre +:+ suf ∧ rest suf = true.
Proof.
  induction name as [|c name IH]; simpl; intros H.
  - apply orb_true_iff in H as [H|H]; [|done]. by exists ""%string, ""%string.
  - apply orb_true_iff in H as [H|H].
    + by exists ""%string, (String c name).
    + destruct (IH H) as (pre & suf & -> & Hs). by exists (String c pre), suf.
Qed.

Lemma fnmatch_tar_gz_only name :
  Py.fnmatch ".tar.gz" name = true → name = ".tar.gz"%string.
Proof.
  intros H.
  repeat (destruct name as [|? name]; [done|];
          rewrite fnmatch_other in H by done;
          apply andb_true_iff in H as [<-%Ascii.eqb_eq H]).
  by destruct name.
Qed.

(** Whatever the pattern starts with: if it ends in [.tar.gz], so do the
    names it matches. *)
Lemma fnmatch_ends_tar_gz p name :
  Py.fnmatch (p +:+ ".tar.gz") name = true → ∃ q, name = q +:+ ".tar.gz".
Proof.
  revert name. induction p as [|a p IH]; intros name H.
  - apply fnmatch_tar_gz_only in H as ->. by exists ""%string.
  - rewrite append_cons in H.
    destruct (decide (a = "*"%char)) as [->|Hstar].
    { apply fnmatch_star_inv in H as (pre & suf & -> & Hs).
      destruct (IH _ Hs) as [q ->]. exists (pre +:+ q). by rewrite append_assoc. }
    destruct (decide (a = "?"%char)) as [->|Hq].
    { destruct name as [|c name]; [done|].
      destruct (IH _ H) as [q ->]. by exists (String c q). }
    rewrite fnmatch_other in H by done.
    destruct name as [|c name]; [done|].
    apply andb_true_iff in H as [_ H].
    destruct (IH _ H) as [q ->]. by exists (String c q).
Qed.

Lemma glob_tar_gz_suffix p name :
  Py.glob_match (p +:+ ".tar.gz") name = true → Py.fnmatch "*.tar.gz" name = true.
Proof.
  unfold Py.glob_match. intros [_ H]%andb_true_iff.
  apply fnmatch_ends_tar_gz in H as [q ->]. apply fnmatch_star_suffix.
Qed.

(** ** The reach of an update (lines 141-237) *)

Section Reach.
Context {E : Type} (host : Host E) (conf : Conf).
Implicit Types w : World E.

(** *** In DIST_PATH *)

Lemma keeps_dist_read_in_tree n v field :
  keeps (dist_is n v) (read_in_tree (E:=E) field).
Proof.
  intros w r w' H HP. unfold read_in_tree in H.
  by repeat (case_match; simplify_eq).
Qed.

Lemma keeps_dist_write_in_tree n v g :
  keeps (dist_is n v) (write_in_tree (E:=E) g).
Proof.
  intros w r w' H HP. unfold write_in_tree in H. unfold dist_is in *.
  repeat (case_match; simplify_eq); by rewrite ?dist_at_put_tree.
Qed.

Lemma keeps_has_require (P : World E → Prop) j : keeps P (has_require j).
Proof. destruct j; simpl; first [apply keeps_ret | apply keeps_raise]. Qed.

Lemma keeps_dist_prune n v x branch :
  Py.fnmatch "*.tar.gz" n = false →
  keeps (dist_is n v) (prune host conf x branch).
Proof.
  intros Hn. apply keeps_dist_prune_missed.
  destruct (Py.glob_match _ n) eqn:Hm; [|done].
  replace (x +:+ "-" +:+ branch +:+ "-*.tar.gz")
    with ((x +:+ "-" +:+ branch +:+ "-*") +:+ ".tar.gz") in Hm
    by (by rewrite !append_assoc).
  apply glob_tar_gz_suffix in Hm. congruence.
Qed.

Lemma keeps_dist_move_tarballs n v :
  Py.fnmatch "*.tar.gz" n = false →
  keeps (dist_is n v) (move_tarballs host conf).
Proof.
  intros Hn w r w' H HP. unfold move_tarballs, bind, gets, logging, modify in H.
  simpl in H.
  eapply (keeps_for_each_in (dist_is n v)); [|exact H|exact HP].
  intros m Hm. apply keeps_dist_shutil_move. intros ->.
  unfold glob_src in Hm. simpl in Hm.
  destruct (src w) as [sd|]; [|by inversion Hm].
  apply elem_of_glob_dir in Hm as [_ Hm].
  unfold Py.glob_match in Hm. apply andb_true_iff in Hm as [_ Hm]. congruence.
Qed.

Local Ltac dist_steps Hn :=
  repeat lazymatch goal with
  | |- ∀ _, _ => intro
  | |- keeps _ (bind _ _) => apply keeps_bind
  | |- keeps _ (try_except _ _ _) => apply keeps_try_except
  | |- keeps _ (for_each _ _) => apply keeps_for_each
  | |- keeps _ (ret _) => apply keeps_ret
  | |- keeps _ (raise _) => apply keeps_raise
  | |- keeps _ (gets _) => apply keeps_gets
  | |- keeps _ (git_url _ _) => apply keeps_git_url
  | |- keeps _ (has_require _) => apply keeps_has_require
  | |- keeps _ (logging _ _) => apply keeps_dist_logging
  | |- keeps _ (shell_exec _ _ _) => apply keeps_dist_shell
  | |- keeps _ chdir_ext => apply keeps_dist_chdir_ext
  | |- keeps _ (chdir_mirror _) => apply keeps_dist_chdir_mirror
  | |- keeps _ (supported_versions _) => apply keeps_dist_supported_versions
  | |- keeps _ (read_in_tree _) => apply keeps_dist_read_in_tree
  | |- keeps _ (write_in_tree _) => apply keeps_dist_write_in_tree
  | |- keeps _ (prune _ _ _ _) => apply (keeps_dist_prune _ _ _ _ Hn)
  | |- keeps _ (move_tarballs _ _) => apply (keeps_dist_move_tarballs _ _ Hn)
  | |- keeps _ (maybe_gc _ _ _) => apply keeps_dist_maybe_gc
  | |- keeps _ (if ?b then _ else _) => destruct b
  | |- keeps _ (match ?x with _ => _ end) => destruct x
  end.




Lemma keeps_dist_update_extension n v x versions :
  Py.fnmatch "*.tar.gz" n = false →
  keeps (dist_is n v) (update_extension host conf x versions).
Proof.
  intros Hn.
  unfold update_extension, sync_branches, prepare, ensure_clone, branches_for,
    update_branch, pin, approach, refresh_remote, checkout_branch,
    guarded_checkout, settle_checkout, publish, build, composer_install,
    write_gitinfo, write_version, finish_update.
  dist_steps Hn.
Qed.

(** X10.  An update deletes, replaces and adds in DIST_PATH under names that end
    in [.tar.gz], and under no other: an entry with any other name is after
    the update what it was before, however the update ends. *)
Theorem update_touches_only_tarballs n x versions w r w' :
  Py.fnmatch "*.tar.gz" n = false →
  update_extension host conf x versions w = (r, w') →
  dist_at n w' = dist_at n w.
Proof.
  intros Hn H.
  by apply (keeps_dist_update_extension n (dist_at n w) x versions Hn _ _ _ H).
Qed.

(** *** In EXT_PATH *)




























End Reach.

(** ** The force flag (line 182) *)

Section Force.
Context {E : Type} (host : Host E) (conf : Conf).








End Force.

(** ** C8: publishing again (lines 154, 181-184, 220-232) *)

Section Again.
Context {E : Type} (host : Host E) (conf : Conf).
Implicit Types w : World E.

(** *** The name of a tarball determines the branch *)





(** *** What the loop leaves of a published tarball *)



(** *** What the loop adds to EXT_PATH *)







(** *** What the loop keeps in EXT_PATH

    Nothing before the move takes an entry of EXT_PATH away. *)












(** *** The branches gone through (line 154) *)











(** *** The second update *)




(** *** The first update *)





End Again.



(** ** The legacy [version] file (lines 214-219) *)

Section Version.
Context {E : Type} (host : Host E) (conf : Conf).


End Version.

(** ** The clone URL (lines 148, 209) *)

Lemma append_nil_r (s : string) : s +:+ "" = s.
Proof. induction s as [|a s IH]; [done|]. by rewrite append_cons, IH. Qed.

Lemma percent_go_plain used arg t :
  has_char "%" t = false →
  Py.percent_go used arg t = if used then Some t else None.
Proof.
  induction t as [|a t IH]; intros Ht; [done|].
  simpl in Ht. apply orb_false_iff in Ht as [Ha Ht]. specialize (IH Ht).
  destruct a as [[] [] [] [] [] [] [] []]; try discriminate Ha;
    simpl; rewrite IH; by destruct used.
Qed.

Lemma percent_prefix t arg :
  has_char "%" t = false → Py.percent (t +:+ "%s") arg = Some (t +:+ arg).
Proof.
  unfold Py.percent. induction t as [|a t IH]; intros Ht.
  - simpl. by rewrite append_nil_r.
  - simpl in Ht. apply orb_false_iff in Ht as [Ha Ht]. specialize (IH Ht).
    rewrite !append_cons.
    destruct a as [[] [] [] [] [] [] [] []]; try discriminate Ha;
      simpl; by rewrite IH.
Qed.

Section Url.
Context {E : Type} (host : Host E) (conf : Conf).

(** X14.  With a template that ends in its one placeholder, the URL of a
    repository is the rest of the template followed by its name. *)
Theorem clone_url_appends_name t x (w : World E) :
  has_char "%" t = false → GIT_URL conf = t +:+ "%s" →
  git_url conf x w = (Ok (t +:+ x), w).
Proof.
  intros Ht Hu. unfold git_url. by rewrite Hu, percent_prefix.
Qed.

(** X15.  A template without placeholder makes every update fail at its second
    line, before anything is cloned, fetched or moved. *)
Theorem update_needs_placeholder x versions (w : World E) :
  has_char "%" (GIT_URL conf) = false →
  update_extension host conf x versions w
  = (Raise (OtherException "TypeError"),
     logged INFO ("Starting update for " +:+ x) w).
Proof.
  intros Ht. unfold update_extension, sync_branches, prepare.
  rewrite !bind_assoc. unfold bind at 1. unfold logging at 1, modify. simpl.
  unfold git_url, Py.percent. rewrite (percent_go_plain _ _ _ Ht).
  reflexivity.
Qed.

End Url.

(** ** The rest of [gitinfo.json] (lines 201-211) *)

Section Record.
Context {E : Type} (host : Host E) (conf : Conf).

(** X16.  The record in [gitinfo.json] carries the full hash and the commit date
    exactly as [git rev-parse HEAD] and [git show] printed them -- unlike
    the revision, they are not stripped -- and for [remoteURL] the template
    filled in with the name of the repository.  The file is written into
    the mirror as the two commands left it. *)
Theorem gitinfo_records_output x w w' :
  write_gitinfo host conf x w = (Ok tt, w') →
  ∃ m t sha1 t1 e1 date t2 e2 g,
    cwd_tree w = Some (m, t) ∧
    in_tree host ["git"; "rev-parse"; "HEAD"]%string t (ext w) = (Done sha1, t1, e1) ∧
    in_tree host ["git"; "show"; "-s"; "--format=format:%ct"; "HEAD"]%string t1 e1
    = (Done date, t2, e2) ∧
    cwd_tree w' = Some (m, set_gitinfo g t2) ∧
    gi_headSHA1 g = sha1 ∧ gi_headCommitDate g = date ∧
    Py.percent (GIT_URL conf) x = Some (gi_remoteURL g).
Proof.
  unfold write_gitinfo. intros H.
  apply bind_inv in H as [(raw & w1 & Hread & H)|(e & _ & [=])].
  apply read_in_tree_inv in Hread as [-> Hraw].
  destruct (Hraw raw eq_refl) as (m & t & Hc & Hhead).
  apply bind_inv in H as [(sha1 & w2 & Hsha & H)|(e & _ & [=])].
  apply shell_in_tree_inv in Hsha as [(Hn & _)|(m1 & t0 & Hc1 & Hsha)];
    [congruence|].
  rewrite Hc in Hc1. injection Hc1 as <- <-. simpl in Hsha.
  destruct (in_tree host _ t (ext w)) as [[o1 t1] e1] eqn:H1.
  destruct Hsha as [-> Ho1]. destruct o1 as [out1|]; [|done].
  injection Ho1 as <-.
  assert (cwd_tree (put_tree m t1 (set_ext e1 w)) = Some (m, t1)) as Hc2.
  { by apply (cwd_tree_put_tree _ m t). }
  assert (ext (put_tree m t1 (set_ext e1 w)) = e1) as He.
  { unfold put_tree. by destruct (src (set_ext e1 w)). }
  apply bind_inv in H as [(date & w3 & Hdate & H)|(e & _ & [=])].
  apply shell_in_tree_inv in Hdate as [(Hn & _)|(m2 & t0 & Hc3 & Hdate)];
    [congruence|].
  rewrite Hc2 in Hc3. injection Hc3 as <- <-. simpl in Hdate. rewrite He in Hdate.
  destruct (in_tree host _ t1 e1) as [[o2 t2] e2] eqn:H2.
  destruct Hdate as [-> Ho2]. destruct o2 as [out2|]; [|done].
  injection Ho2 as <-.
  apply bind_inv in H as [(url & w4 & Hurl & H)|(e & _ & [=])].
  pose proof (git_url_inv _ _ _ _ _ Hurl) as ->.
  unfold git_url in Hurl. destruct (Py.percent (GIT_URL conf) x) as [u|] eqn:Hu;
    [|done]. injection Hurl as <-.
  apply write_in_tree_inv in H as [(Hn & _)|(m' & t' & Hc' & _ & ->)].
  { rewrite (cwd_tree_put_tree _ m t1) in Hn; [done|]. exact Hc2. }
  rewrite (cwd_tree_put_tree _ m t1) in Hc' by exact Hc2. injection Hc' as <- <-.
  eexists m, t, sha1, t1, e1, date, t2, e2, _.
  split; [done|]. split; [done|]. split; [done|]. split.
  - apply (cwd_tree_put_tree _ m t2).
    apply (cwd_tree_put_tree _ m t1). exact Hc2.
  - by simpl.
Qed.

End Record.

(** ** The further properties on examples *)

(** The second look at the list of repositories costs no request: the clock
    of the outside world stands still. *)
Lemma repo_list_is_cached_witness :
  let c := Sample.conf false in
  let w' := snd (repo_list Sample.h c Sample.w_fresh) in
  _repo_list w' = Some ["Foo"; "Bar"]%string ∧
  repo_list Sample.h c w' = (Ok ["Foo"; "Bar"]%string, w').
Proof.
  intros c w'.
  apply (repo_list_is_cached Sample.h c Sample.w_fresh (Ok ["Foo"; "Bar"]%string) w').
  vm_compute; reflexivity.
Defined.

(** The site information lacks the entry ['list']: the first call fails
    at line 102, with the object already kept, and the second call returns
    the branches without a request. *)
Lemma supported_versions_is_cached_witness :
  let out := supported_versions Cases.h_no_list Sample.w_fresh in
  fst out = Raise (OtherException "KeyError") ∧
  supported_versions Cases.h_no_list (snd out) = (Ok ["REL1_39"%string], snd out) ∧
  (_extension_config (snd out) = _extension_config Sample.w_fresh ∨
   ∃ c, _extension_config Sample.w_fresh = None ∧
        _extension_config (snd out) = Some c ∧
        OtherException "KeyError" = OtherException "KeyError" ∧
        match snapshots c with
        | Some l =>
            has_list c = false ∧
            supported_versions Cases.h_no_list (snd out) = (Ok l, snd out)
        | None =>
            supported_versions Cases.h_no_list (snd out)
            = (Raise (OtherException "KeyError"), snd out)
        end).
Proof.
  intros out. split; [vm_compute; reflexivity|]. split; [vm_compute; reflexivity|].
  apply (supported_versions_is_cached Cases.h_no_list Sample.w_fresh
           (Raise (OtherException "KeyError")) (snd out)).
  vm_compute; reflexivity.
Defined.


Lemma snapshots_stay_fixed_witness :
  let c := Sample.conf false in
  let out := for_each ["Foo"; "Bar"]%string (guarded_update Sample.h c None)
               Cases.w_fetched in
  snapshots_known ["REL1_39"%string] (snd out) ∧
  branches_for Sample.h None (snd out) = (Ok ["REL1_39"%string], snd out).
Proof.
  intros c out.
  apply (snapshots_stay_fixed Sample.h c ["REL1_39"%string] ["Foo"; "Bar"]%string
           None Cases.w_fetched (fst out) (snd out));
    [by eexists | vm_compute; reflexivity].
Defined.

(** The first start-up makes both directories. *)
Lemma init_sets_the_stage_witness :
  let c := Sample.conf false in
  let w' := snd (init Sample.h c Cases.w_unstarted) in
  src Cases.w_unstarted = None ∧ dist Cases.w_unstarted = None ∧
  src w' = Some ∅ ∧ dist w' = Some ∅ ∧ pid_file w' = LockText "777".
Proof.
  intros c w'. split; [reflexivity|]. split; [reflexivity|].
  apply (init_sets_the_stage Sample.h c Cases.w_unstarted w').
  vm_compute; reflexivity.
Defined.


Lemma ensure_clone_once_witness :
  let c := Sample.conf false in
  let w' := snd (ensure_clone Sample.h c "Bar" Sample.url Sample.w_fresh) in
  exists_in_src "Bar" Sample.w_fresh = false ∧
  exists_in_src "Bar" w' = true ∧
  ensure_clone Sample.h c "Bar" Sample.url w' = (Ok tt, w').
Proof.
  intros c w'. split; [vm_compute; reflexivity|].
  apply (ensure_clone_once Sample.h c "Bar" Sample.url Sample.url Sample.w_fresh w').
  vm_compute; reflexivity.
Defined.



Lemma update_touches_only_tarballs_witness :
  let c := Sample.conf false in
  let out := update_extension Sample.h c "Foo" (Some ["REL1_39"%string])
               Cases.w_two_mirrors in
  fst out = Ok tt ∧
  is_Some (dist_at "Foo-REL1_39.tar.gz" (snd out)) ∧
  dist_at "index.html" (snd out) = Some Cases.index_page.
Proof.
  intros c out. split; [vm_compute; reflexivity|]. split.
  - eexists. vm_compute; reflexivity.
  - change (Some Cases.index_page) with (dist_at "index.html" Cases.w_two_mirrors).
    apply (update_touches_only_tarballs Sample.h c "index.html" "Foo"
             (Some ["REL1_39"%string]) Cases.w_two_mirrors (fst out) (snd out));
      vm_compute; reflexivity.
Defined.




Lemma clone_url_appends_name_witness :
  git_url (Sample.conf false) "Foo" Sample.w_fresh = (Ok Sample.url, Sample.w_fresh).
Proof.
  apply (clone_url_appends_name (Sample.conf false)
           "https://gerrit.example.org/r/mediawiki/extensions/" "Foo" Sample.w_fresh);
    reflexivity.
Defined.

Lemma update_needs_placeholder_witness :
  update_extension Sample.h Cases.conf_no_placeholder "Foo" None Sample.w_fresh
  = (Raise (OtherException "TypeError"),
     logged INFO ("Starting update for " +:+ "Foo") Sample.w_fresh).
Proof.
  apply (update_needs_placeholder Sample.h Cases.conf_no_placeholder "Foo" None
           Sample.w_fresh).
  reflexivity.
Defined.

(** The hash keeps the line feed that git ends its output with. *)
Lemma gitinfo_records_output_witness :
  let c := Sample.conf false in
  let w' := snd (write_gitinfo Sample.h c "Foo" Sample.w_on_main) in
  (∃ t g, cwd_tree w' = Some ("Foo"%string, t) ∧ t_gitinfo t = Some g ∧
          gi_headSHA1 g = Sample.sha +:+ LF ∧ gi_remoteURL g = Sample.url) ∧
  ∃ m t sha1 t1 e1 date t2 e2 g,
    cwd_tree Sample.w_on_main = Some (m, t) ∧
    in_tree Sample.h ["git"; "rev-parse"; "HEAD"]%string t (ext Sample.w_on_main)
    = (Done sha1, t1, e1) ∧
    in_tree Sample.h ["git"; "show"; "-s"; "--format=format:%ct"; "HEAD"]%string t1 e1
    = (Done date, t2, e2) ∧
    cwd_tree w' = Some (m, set_gitinfo g t2) ∧
    gi_headSHA1 g = sha1 ∧ gi_headCommitDate g = date ∧
    Py.percent (GIT_URL c) "Foo" = Some (gi_remoteURL g).
Proof.
  intros c w'. split.
  - eexists _, _. repeat split; vm_compute; reflexivity.
  - apply (gitinfo_records_output Sample.h c "Foo" Sample.w_on_main w').
    vm_compute; reflexivity.
Defined.
